(** * Write-path reconciliation of the Pandora output plugins

    A shallow embedding of the two telegraf output plugins of this
    repository,

    - [plugins/outputs/pandora]  (package [pandora],  type [PandoraTSDB]),
    - [plugins/outputs/pipeline] (package [pipeline], type [Pipeline]),

    and the properties of their write paths.

    Conventions of the embedding.
    - A Go [string] and a Go [[]byte] are a [string] (a list of bytes).
    - A Go [error] is an [option string]: [None] is [nil], [Some msg] is an
      error whose [Error()] text is [msg].
    - A Go [map] is a [gmap]; a [range] over a map visits the entries in an
      order chosen by the runtime, which is the parameter [GoRuntime].
    - The remote services behind the SDK clients are a state machine
      [Backend]; every SDK call is recorded in a trace.
    - A method call through a [nil] client handle is the outcome [Panic].
    - Diagnostic output ([log.Printf], [fmt.Println]) is not modelled. *)

From Stdlib Require Import ZArith Ascii DecimalString.
From stdpp Require Import gmap strings list fin_maps.

(** ** Strings and bytes *)

Definition error := option string.

Definition LF : ascii := "010"%char.
Definition comma : ascii := ","%char.

(** [strings.Contains(s, substr)]. *)
Fixpoint Contains (s substr : string) : bool :=
  String.prefix substr s ||
  match s with
  | EmptyString => false
  | String _ s' => Contains s' substr
  end.

(** [bytes.Split(s, sep)] for a separator of one byte, which is what both
    call sites of the sources pass ("\n" and ","). The result is never
    empty: splitting the empty slice gives one empty slice. *)
Fixpoint Split (s : string) (sep : ascii) : list string :=
  match s with
  | EmptyString => [EmptyString]
  | String c s' =>
      if Ascii.eqb c sep then EmptyString :: Split s' sep
      else match Split s' sep with
           | [] => [String c EmptyString]
           | w :: ws => String c w :: ws
           end
  end.

(** [fmt.Sprintf("%d", z)] for an [int64]. *)
Definition fmt_d (z : Z) : string := NilZero.string_of_int (Z.to_int z).

(** Number of occurrences of a byte. *)
Fixpoint count_byte (c : ascii) (s : string) : nat :=
  match s with
  | EmptyString => O
  | String d s' => (if Ascii.eqb d c then 1 else 0)%nat + count_byte c s'
  end.

(** Text of [s] in front of the first occurrence of [c] (all of [s] when
    there is none). *)
Fixpoint before (c : ascii) (s : string) : string :=
  match s with
  | EmptyString => EmptyString
  | String d s' => if Ascii.eqb d c then EmptyString else String d (before c s')
  end.

(** ** The Go runtime and the hosting framework *)

(** Field values of a parsed point, by dynamic type ([interface{}]). *)
Inductive GoValue :=
| V_int64 (i : Z)
| V_float64 (bits : Z)
| V_string (s : string)
| V_bool (b : bool)
| V_uint64 (u : Z).

(** What the Go runtime decides: the order in which [range] visits a map,
    and the text of a [float64] under the verb [%v]. No call of the
    sources ranges twice over one map with an effect that depends on the
    order, so the order is taken as a function of the map. *)
Class GoRuntime := {
  go_range : ∀ {K : Type} `{Countable K} {V : Type}, gmap K V → list (K * V);
  fmt_float64 : Z → string;
}.

(** A [range] visits every entry of the map exactly once. *)
Definition GoRangeOk (R : GoRuntime) : Prop :=
  ∀ (K : Type) `(Countable K) (V : Type) (m : gmap K V),
    go_range m ≡ₚ map_to_list m.

(** [fmt.Sprintf("%v", val)]. *)
Definition fmt_v `{GoRuntime} (val : GoValue) : string :=
  match val with
  | V_int64 i => fmt_d i
  | V_float64 bits => fmt_float64 bits
  | V_string s => s
  | V_bool b => if b then "true" else "false"
  | V_uint64 u => fmt_d u
  end.

(** [models.Point] of influxdb: [Name()], [Tags()] (a slice sorted by
    key), [Fields()] (a map) and [UnixNano()]. *)
Record Point := {
  Name : string;
  Tags : list (string * string);
  Fields : gmap string GoValue;
  UnixNano : Z;
}.

(** A constructed SDK client. A [nil] client is [None]. *)
Inductive Handle := NewHandle (endpoint : string).

(** [pipeline.Config] as the sources fill it. *)
Record Config := {
  cfg_ak : string;
  cfg_sk : string;
  cfg_endpoint : string;
  cfg_timeout : Z;
}.

(** Collaborators outside this repository: telegraf's metrics and reader,
    the line-protocol parser, [net/url] and the SDK constructors. *)
Class Host := {
  Metric : Type;
  Metric_Len : Metric → nat;
  (** [metric.NewReader(metrics).Read(p)] with [len(p) = size]: the bytes
      read, [p[:n]], and the error. *)
  Reader_Read : list Metric → nat → string * error;
  (** [tsdb.ParsePoints] *)
  ParsePoints : string → list Point * error;
  (** [url.Parse]: the scheme of the parsed URL and the error. *)
  url_Parse : string → string * error;
  pipeline_New : Config → option Handle * error;
  tsdb_New : Config → option Handle * error;
}.

(** ** The backend behind the SDK clients *)

Record RepoSchemaEntry := {
  Key : string;
  ValueType : string;
  Required : bool;
}.

Record ExportTsdbSpec := {
  DestRepoName : string;
  SeriesName : string;
  Timestamp : string;
  ExportTags : gmap string string;
  ExportFields : gmap string string;
}.

(** The SDK calls of the two clients, with the inputs the sources pass. *)
Inductive Call :=
| PostDataFromBytes (RepoName Buffer : string)
| GetRepo (RepoName : string)
| CreateRepo (RepoName Region : string) (Schema : list RepoSchemaEntry)
| UpdateRepo (RepoName : string) (Schema : list RepoSchemaEntry)
| CreateExport (RepoName ExportName Type_ Whence : string) (Spec : ExportTsdbSpec)
| UpdateExport (RepoName ExportName : string) (Spec : ExportTsdbSpec)
| TsdbCreateRepo (RepoName Region : string)
| TsdbCreateSeries (RepoName SeriesName Retention : string)
| TsdbPostPointsFromBytes (RepoName Buffer : string).

(** What a call gives back: its error and, for [GetRepo], the schema of
    the output (the SDK allocates the output before it sends the request,
    so the schema of a failed [GetRepo] is the empty one it was built
    with, or whatever the service sent). *)
Record Reply := {
  reply_err : error;
  reply_schema : list RepoSchemaEntry;
}.

Definition ok : Reply := {| reply_err := None; reply_schema := [] |}.
Definition fail (msg : string) : Reply :=
  {| reply_err := Some msg; reply_schema := [] |}.

(** The remote services: a state and the answer to each call. *)
Class Backend := {
  World : Type;
  respond : World → Call → Reply * World;
}.

(** A backend whose answers do not depend on earlier calls. *)
Definition stateless (f : Call → Reply) : Backend :=
  {| World := unit; respond := λ w c, (f c, w) |}.

(** ** Calls, traces and panics *)

Record St `{Backend} := {
  world : World;
  trace : list (Call * error);
}.

Inductive Outcome (A : Type) :=
| Ret (a : A)
| Panic.
Arguments Ret {A} a.
Arguments Panic {A}.

Definition M `{Backend} (A : Type) : Type := St → Outcome A * St.

Definition ret `{Backend} {A} (a : A) : M A := λ st, (Ret a, st).

Definition bind `{Backend} {A B} (m : M A) (k : A → M B) : M B :=
  λ st, match m st with
        | (Ret a, st') => k a st'
        | (Panic, st') => (Panic, st')
        end.

Notation "x ←← m ;; k" := (bind m (λ x, k))
  (at level 100, m at next level, right associativity,
   format "'[v' x  ←←  m  ;;  '/' k ']'").

(** A method call on a client: a [nil] client panics, a constructed one
    asks the backend and records the call. *)
Definition call `{Backend} (client : option Handle) (c : Call) : M Reply :=
  λ st, match client with
        | None => (Panic, st)
        | Some _ =>
            let '(r, w) := respond (world st) c in
            (Ret r, {| world := w; trace := trace st ++ [(c, reply_err r)] |})
        end.

(** The reply to a call in a state, and the state after it. *)
Definition answer `{Backend} (st : St) (c : Call) : Reply :=
  (respond (world st) c).1.

Definition record `{Backend} (st : St) (c : Call) : St :=
  {| world := (respond (world st) c).2;
     trace := trace st ++ [(c, reply_err (answer st c))] |}.

(** The calls issued between two states. *)
Definition issued `{Backend} (st st' : St) (cs : list Call) : Prop :=
  ∃ evs, trace st' = trace st ++ evs ∧ evs.*1 = cs.

(** The two calls that write points to the backend. *)
Definition is_write (c : Call) : bool :=
  match c with
  | PostDataFromBytes _ _ | TsdbPostPointsFromBytes _ _ => true
  | _ => false
  end.

(** A [for] loop over a slice whose body assigns the named result [err]. *)
Fixpoint for_err `{Backend} {A} (body : A → M error) (l : list A) (err : error) : M error :=
  match l with
  | [] => ret err
  | x :: l' => err' ←← body x ;; for_err body l' err'
  end.

(** ** Package [pandora]: the TSDB output *)

Module Pandora.

Record PandoraTSDB := {
  URL : string;
  AK : string;
  SK : string;
  Repo : string;
  RetentionPolicy : string;
  AutoCreateSeries : bool;
  Timeout : Z;
  client : option Handle;
}.

(** [func newPandoraTSDB() *PandoraTSDB]: only the timeout (5s, in ns) is
    set, every other field has its zero value. *)
Definition newPandoraTSDB : PandoraTSDB :=
  {| URL := ""; AK := ""; SK := ""; Repo := ""; RetentionPolicy := "";
     AutoCreateSeries := false; Timeout := 5000000000%Z; client := None |}.

(** [func (i *PandoraTSDB) Connect() error]: the adapter after the call
    and the error. *)
Definition Connect `{Host} (i : PandoraTSDB) : PandoraTSDB * error :=
  let '(scheme, err) := url_Parse (URL i) in
  match err with
  | Some e => (i, Some ("error parsing config.URL: " +:+ e))
  | None =>
      if negb (String.eqb scheme "http") && negb (String.eqb scheme "https")
      then (i, Some ("config.URL scheme must be http(s), got " +:+ scheme))
      else
        let cfg := {| cfg_ak := AK i; cfg_sk := SK i; cfg_endpoint := URL i;
                      cfg_timeout := Timeout i |} in
        let '(client, err) := tsdb_New cfg in
        match err with
        | Some e => (i, Some e)
        | None =>
            ({| URL := URL i; AK := AK i; SK := SK i; Repo := Repo i;
                RetentionPolicy := RetentionPolicy i;
                AutoCreateSeries := AutoCreateSeries i;
                Timeout := Timeout i; client := client |}, None)
        end
  end.

(** [func getSeries(points []byte) (series []string)] *)
Definition getSeries (points : string) : list string :=
  fold_left
    (λ series line,
       if (String.length line =? 0)%nat then series
       else
         let ss := Split line comma in
         if (1 <? length ss)%nat then series ++ [hd EmptyString ss]
         else series)
    (Split points LF) [].

(** [func createSeries(repo, retention string, points []byte,
    client tsdb.TsdbAPI) (err error)] *)
Definition createSeries `{Backend} (repo retention points : string)
    (client : option Handle) : M error :=
  let series := getSeries points in
  for_err (λ s, r ←← call client (TsdbCreateSeries repo s retention) ;;
                ret (reply_err r))
          series None.

Definition sentinel : string :=
  "Could not write to any PandoraTSDB server in cluster".

(** [func (i *PandoraTSDB) Write(metrics []telegraf.Metric) error] *)
Definition Write `{Host} `{Backend} (i : PandoraTSDB) (metrics : list Metric)
    : M error :=
  let bufsize := sum_list (Metric_Len <$> metrics) in
  let '(p_n, err) := Reader_Read metrics bufsize in
  match err with
  | Some _ => ret err
  | None =>
      let err := Some sentinel in
      r ←← call (client i) (TsdbPostPointsFromBytes (Repo i) p_n) ;;
      match reply_err r with
      | Some e =>
          if Contains e "field type conflict" then ret None
          else if Contains e "E7101" && AutoCreateSeries i then
            _ ←← createSeries (Repo i) (RetentionPolicy i) p_n (client i) ;;
            ret err
          else ret err
      | None => ret None
      end
  end.

(** [Connect], lines 63-68: the configuration of the client. *)
Definition tsdbCfg (i : PandoraTSDB) : Config :=
  {| cfg_ak := AK i; cfg_sk := SK i; cfg_endpoint := URL i;
     cfg_timeout := Timeout i |}.

Definition with_client (i : PandoraTSDB) (c : option Handle) : PandoraTSDB :=
  {| URL := URL i; AK := AK i; SK := SK i; Repo := Repo i;
     RetentionPolicy := RetentionPolicy i;
     AutoCreateSeries := AutoCreateSeries i;
     Timeout := Timeout i; client := c |}.

(** The write call of [Write] and the calls of [createSeries]. *)
Definition post (i : PandoraTSDB) (buf : string) : Call :=
  TsdbPostPointsFromBytes (Repo i) buf.

Definition series_calls (i : PandoraTSDB) (buf : string) : list Call :=
  (λ s, TsdbCreateSeries (Repo i) s (RetentionPolicy i)) <$> getSeries buf.

End Pandora.

(** ** Package [pipeline]: the Pipeline output *)

Module PipelineOut.

Record Pipeline := {
  URL : string;
  AK : string;
  SK : string;
  Repo : string;
  AutoCreateRepo : bool;
  Timeout : Z;
  client : option Handle;
  tsdbClient : option Handle;
}.

(** [func newPipeline() *Pipeline] *)
Definition newPipeline : Pipeline :=
  {| URL := ""; AK := ""; SK := ""; Repo := ""; AutoCreateRepo := false;
     Timeout := 5000000000%Z; client := None; tsdbClient := None |}.

Definition with_client (i : Pipeline) (c : option Handle) : Pipeline :=
  {| URL := URL i; AK := AK i; SK := SK i; Repo := Repo i;
     AutoCreateRepo := AutoCreateRepo i; Timeout := Timeout i;
     client := c; tsdbClient := tsdbClient i |}.

Definition with_tsdbClient (i : Pipeline) (c : option Handle) : Pipeline :=
  {| URL := URL i; AK := AK i; SK := SK i; Repo := Repo i;
     AutoCreateRepo := AutoCreateRepo i; Timeout := Timeout i;
     client := client i; tsdbClient := c |}.

(** [func (i *Pipeline) Connect() error]: the adapter after the call and
    the error. *)
Definition Connect `{Host} (i : Pipeline) : Pipeline * error :=
  let '(scheme, err) := url_Parse (URL i) in
  match err with
  | Some e => (i, Some ("error parsing config.URL: " +:+ e))
  | None =>
      if negb (String.eqb scheme "http") && negb (String.eqb scheme "https")
      then (i, Some ("config.URL scheme must be http(s), got " +:+ scheme))
      else
        let cfg := {| cfg_ak := AK i; cfg_sk := SK i; cfg_endpoint := URL i;
                      cfg_timeout := Timeout i |} in
        let '(client, err) := pipeline_New cfg in
        match err with
        | Some e => (i, Some e)
        | None =>
            let i := with_client i client in
            let tsdbCfg := {| cfg_ak := AK i; cfg_sk := SK i;
                              cfg_endpoint := "https://tsdb.qiniu.com";
                              cfg_timeout := Timeout i |} in
            let '(tsdbClient, err) := tsdb_New tsdbCfg in
            match err with
            | Some e => (i, Some e)
            | None => (with_tsdbClient i tsdbClient, None)
            end
        end
  end.

Definition TAB : string := String "009"%char EmptyString.
Definition NL : string := String LF EmptyString.

(** [func convertTag(repoName string, tags tsdb.Tags) string] *)
Definition convertTag (repoName : string) (tags : list (string * string)) : string :=
  fold_left
    (λ result val,
       result +:+ (repoName +:+ "_" +:+ val.1 +:+ "=" +:+ val.2 +:+ TAB))
    tags "".

(** [func convertField(repoName string, fields tsdb.Fields) string] *)
Definition convertField `{GoRuntime} (repoName : string)
    (fields : gmap string GoValue) : string :=
  fold_left
    (λ result kv,
       result +:+ (repoName +:+ "_" +:+ kv.1 +:+ "=" +:+ fmt_v kv.2 +:+ TAB))
    (go_range fields) "".

(** [Write], lines 146-157: the points grouped by timestamp. *)
Definition groupByTimestamp (pts : list Point) : gmap Z (list Point) :=
  fold_left
    (λ points pt,
       let timestamp := UnixNano pt in
       let points :=
         match points !! timestamp with
         | None => <[timestamp := []]> points
         | Some _ => points
         end in
       <[timestamp := default [] (points !! timestamp) ++ [pt]]> points)
    pts ∅.

(** [Write], lines 161-167: the text of one group. *)
Definition line `{GoRuntime} (data : string) (timestamp : Z) (pts : list Point) : string :=
  let data :=
    fold_left
      (λ data pt,
         let repoName := Name pt in
         let data := data +:+ convertTag repoName (Tags pt) in
         data +:+ convertField repoName (Fields pt))
      pts data in
  data +:+ ("timestamp=" +:+ fmt_d timestamp +:+ NL).

(** [Write], lines 159-168: the buffer sent to the backend. *)
Definition serialize `{GoRuntime} (pts : list Point) : string :=
  fold_left (λ data g, line data g.1 g.2) (go_range (groupByTimestamp pts)) "".

(** The tag and field text of the points of one group, and the line of a
    group: [line] started on an empty buffer. *)
Definition lineBody `{GoRuntime} (pts : list Point) : string :=
  fold_left
    (λ data pt,
       let repoName := Name pt in
       let data := data +:+ convertTag repoName (Tags pt) in
       data +:+ convertField repoName (Fields pt))
    pts "".

Definition lineOf `{GoRuntime} (g : Z * list Point) : string :=
  lineBody g.2 +:+ ("timestamp=" +:+ fmt_d g.1 +:+ NL).

(** The lines of a buffer, one after the other. *)
Definition join (lines : list string) : string :=
  foldr String.append "" lines.

(** [func getFieldType(val interface{}) string]. The parser produces no
    [int], [int16] or [int32], which the first case also lists. *)
Definition getFieldType (val : GoValue) : string :=
  match val with
  | V_int64 _ => "long"
  | V_float64 _ => "float"
  | V_string _ => "string"
  | V_bool _ => "boolean"
  | _ => "string"
  end.

(** [func extractSchemaFromPoints(points tsdb.Points)
    (tags []string, fields map[string]string)] *)
Definition extractSchemaFromPoints `{GoRuntime} (points : list Point)
    : list string * gmap string string :=
  fold_left
    (λ acc pt,
       let tags :=
         fold_left (λ tags val, tags ++ [Name pt +:+ "_" +:+ val.1])
                   (Tags pt) acc.1 in
       let fields :=
         fold_left (λ fields kv,
                      <[Name pt +:+ "_" +:+ kv.1 := getFieldType kv.2]> fields)
                   (go_range (Fields pt)) acc.2 in
       (tags, fields))
    points ([], ∅).

Definition exportName (seriesName : string) : string :=
  "export_" +:+ seriesName +:+ "_toTSDB".

(** [createOrUpdateExport], lines 263-271: the tag or field spec. *)
Definition exportSpecOf `{GoRuntime} (seriesName : string) (keys : gmap string unit)
    : gmap string string :=
  fold_left (λ spec kv, <[kv.1 := "#" +:+ seriesName +:+ "_" +:+ kv.1]> spec)
            (go_range keys) ∅.

(** [createOrUpdateExport], lines 263-284: the spec that is sent with
    [CreateExport] and, unchanged, with [UpdateExport]. *)
Definition exportSpec `{GoRuntime} (i : Pipeline) (seriesName : string)
    (tags fields : gmap string unit) : ExportTsdbSpec :=
  let exportTagSpec := exportSpecOf seriesName tags in
  let exportFieldSpec := exportSpecOf seriesName fields in
  {| DestRepoName := Repo i; SeriesName := seriesName;
     Timestamp := "#timestamp";
     ExportTags := exportTagSpec; ExportFields := exportFieldSpec |}.

(** [func (i *Pipeline) createOrUpdateExport(seriesName string,
    tags map[string]struct{}, fields map[string]struct{}) (err error)] *)
Definition createOrUpdateExport `{GoRuntime} `{Backend} (i : Pipeline)
    (seriesName : string) (tags fields : gmap string unit) : M error :=
  r ←← call (tsdbClient i) (TsdbCreateSeries (Repo i) seriesName "7d") ;;
  let err := reply_err r in
  let err :=
    match err with
    | Some e => if negb (Contains e "E6302") then None else err
    | None => err
    end in
  let spec := exportSpec i seriesName tags fields in
  r ←← call (client i)
         (CreateExport (Repo i) (exportName seriesName) "tsdb" "oldest" spec) ;;
  let err := reply_err r in
  match err with
  | Some e =>
      if Contains e "E18301" then
        r ←← call (client i) (UpdateExport (Repo i) (exportName seriesName) spec) ;;
        ret (reply_err r)
      else ret err
  | None => ret err
  end.

(** [updateExport], lines 313-339: tag and field keys per series. *)
Definition measurementsOf `{GoRuntime} (points : list Point)
    : gmap string (gmap string unit * gmap string unit) :=
  fold_left
    (λ measurements pt,
       let ptName := Name pt in
       let measurements :=
         match measurements !! ptName with
         | None => <[ptName := (∅, ∅)]> measurements
         | Some _ => measurements
         end in
       let measurements :=
         fold_left
           (λ ms tag, alter (λ v, (<[tag.1 := ()]> v.1, v.2)) ptName ms)
           (Tags pt) measurements in
       fold_left
         (λ ms field, alter (λ v, (v.1, <[field.1 := ()]> v.2)) ptName ms)
         (go_range (Fields pt)) measurements)
    points ∅.

(** [func (i *Pipeline) updateExport(points tsdb.Points) (err error)] *)
Definition updateExport `{GoRuntime} `{Backend} (i : Pipeline)
    (points : list Point) : M error :=
  for_err (λ kv, createOrUpdateExport i kv.1 kv.2.1 kv.2.2)
          (go_range (measurementsOf points)) None.

(** [updateSchema], lines 364-387: the working mapping [schemas], seeded
    from the fetched schema, filled from the tags, the fields and the
    timestamp, and cleared of the keys of the fetched schema. *)
Definition schemaDelta `{GoRuntime} (schema : list RepoSchemaEntry)
    (tags : list string) (fields : gmap string string) : gmap string string :=
  let schemas : gmap string string :=
    fold_left (λ schemas e, <[Key e := ValueType e]> schemas) schema ∅ in
  let schemas :=
    fold_left
      (λ schemas tag,
         match schemas !! tag with
         | None => <[tag := "string"]> schemas
         | Some _ => schemas
         end)
      tags schemas in
  let schemas :=
    fold_left
      (λ schemas kv,
         match schemas !! kv.1 with
         | None => <[kv.1 := kv.2]> schemas
         | Some _ => schemas
         end)
      (go_range fields) schemas in
  let schemas :=
    match schemas !! "timestamp" with
    | None => <["timestamp" := "long"]> schemas
    | Some _ => schemas
    end in
  fold_left (λ schemas e, delete (Key e) schemas) schema schemas.

(** [updateSchema], lines 389-396: the entries that are sent on top of the
    fetched schema. *)
Definition schemaTarget `{GoRuntime} (schema : list RepoSchemaEntry)
    (tags : list string) (fields : gmap string string) : list RepoSchemaEntry :=
  fold_left
    (λ target kv,
       target ++ [{| Required := false; Key := kv.1; ValueType := kv.2 |}])
    (go_range (schemaDelta schema tags fields)) [].

(** [func (i *Pipeline) updateSchema(points tsdb.Points) error] *)
Definition updateSchema `{GoRuntime} `{Backend} (i : Pipeline)
    (points : list Point) : M error :=
  let '(tags, fields) := extractSchemaFromPoints points in
  r ←← call (client i) (GetRepo (Repo i)) ;;
  let schema := reply_schema r in
  let err := reply_err r in
  let createRepo :=
    match err with
    | Some e => Contains e "E18102"
    | None => false
    end in
  let target := schemaTarget schema tags fields in
  if createRepo then
    r ←← call (client i) (CreateRepo (Repo i) "nb" (schema ++ target)) ;;
    match reply_err r with
    | Some e => ret (Some e)
    | None =>
        r ←← call (tsdbClient i) (TsdbCreateRepo (Repo i) "nb") ;;
        let err :=
          match reply_err r with
          | Some e => Some ("create tsdb repo " +:+ Repo i +:+ " fail, " +:+ e)
          | None => None
          end in
        err ←← updateExport i points ;;
        ret err
    end
  else
    r ←← call (client i) (UpdateRepo (Repo i) (schema ++ target)) ;;
    let err := reply_err r in
    err ←← updateExport i points ;;
    match err with
    | Some _ => ret err
    | None => ret err
    end.

(** [Write], lines 127-143: the batch is serialized and parsed back. The
    result is the parsed points, or the error with which [Write] returns
    before it reaches the backend. *)
Definition readPoints `{Host} (metrics : list Metric) : string + list Point :=
  let bufsize := sum_list (Metric_Len <$> metrics) in
  let '(p_n, err) := Reader_Read metrics bufsize in
  let n := String.length p_n in
  let p := p_n +:+ String.string_of_list_ascii (replicate (bufsize - n) Ascii.zero) in
  let parse :=
    let '(pts, err) := ParsePoints p in
    match err with
    | Some e => inl e
    | None => inr pts
    end in
  match err with
  | Some e => if negb (n =? bufsize)%nat then inl e else parse
  | None => parse
  end.

(** [Write], lines 139-143: the outcome of parsing a buffer. *)
Definition parsed `{Host} (p : string) : string + list Point :=
  match ParsePoints p with
  | (_, Some e) => inl e
  | (pts, None) => inr pts
  end.

(** [make([]byte, k)]: [k] zero bytes. *)
Definition zeros (k : nat) : string :=
  String.string_of_list_ascii (replicate k Ascii.zero).

(** [func (i *Pipeline) Write(metrics []telegraf.Metric) error], at the
    wall-clock time [now] ([time.Now().Unix()]). *)
Definition Write `{GoRuntime} `{Host} `{Backend} (i : Pipeline) (now : Z)
    (metrics : list Metric) : M error :=
  match readPoints metrics with
  | inl e => ret (Some e)
  | inr pts =>
      let err : error := None in
      let data := serialize pts in
      r ←← call (client i) (PostDataFromBytes (Repo i) data) ;;
      match reply_err r with
      | Some e =>
          if Contains e "E18102" then
            if AutoCreateRepo i then updateSchema i pts
            else ret None
          else if Contains e "E18111" then
            if AutoCreateRepo i then updateSchema i pts
            else ret err
          else ret err
      | None =>
          if (Z.rem now 60 <? 11)%Z then
            _ ←← updateExport i pts ;;
            ret None
          else ret None
      end
  end.

(** [Connect], lines 59-64 and 75-80: the configurations of the two
    clients. The TSDB endpoint is fixed. *)
Definition pipelineCfg (i : Pipeline) : Config :=
  {| cfg_ak := AK i; cfg_sk := SK i; cfg_endpoint := URL i;
     cfg_timeout := Timeout i |}.

Definition tsdbCfg (i : Pipeline) : Config :=
  {| cfg_ak := AK i; cfg_sk := SK i;
     cfg_endpoint := "https://tsdb.qiniu.com";
     cfg_timeout := Timeout i |}.

(** The calls of [createOrUpdateExport], [updateSchema] and [Write]. *)
Definition create_series (i : Pipeline) (seriesName : string) : Call :=
  TsdbCreateSeries (Repo i) seriesName "7d".

Definition create_export `{GoRuntime} (i : Pipeline) (seriesName : string)
    (tags fields : gmap string unit) : Call :=
  CreateExport (Repo i) (exportName seriesName) "tsdb" "oldest"
               (exportSpec i seriesName tags fields).

Definition update_export `{GoRuntime} (i : Pipeline) (seriesName : string)
    (tags fields : gmap string unit) : Call :=
  UpdateExport (Repo i) (exportName seriesName)
               (exportSpec i seriesName tags fields).

Definition get_repo (i : Pipeline) : Call := GetRepo (Repo i).

Definition post `{GoRuntime} (i : Pipeline) (pts : list Point) : Call :=
  PostDataFromBytes (Repo i) (serialize pts).

(** The schema that [updateSchema] sends for a fetched schema. *)
Definition payload `{GoRuntime} (schema : list RepoSchemaEntry)
    (points : list Point) : list RepoSchemaEntry :=
  schema ++ schemaTarget schema (extractSchemaFromPoints points).1
                         (extractSchemaFromPoints points).2.

Definition entry (key valueType : string) : RepoSchemaEntry :=
  {| Key := key; ValueType := valueType; Required := false |}.

(** The type with which a key that the fetched schema does not have is
    added: "string" for a tag key, else the type of the field, else "long"
    for the key [timestamp]. *)
Definition addedType (tags : list string) (fields : gmap string string)
    (k : string) : option string :=
  if decide (k ∈ tags) then Some "string"
  else match fields !! k with
       | Some ty => Some ty
       | None => if decide (k = "timestamp") then Some "long" else None
       end.

(** No text of the point holds a newline byte: its name, its tag keys and
    values, its field keys and the text of its field values. *)
Definition newlineFree `{GoRuntime} (pt : Point) : Prop :=
  count_byte LF (Name pt) = 0%nat
  ∧ Forall (λ kv, count_byte LF kv.1 = 0%nat ∧ count_byte LF kv.2 = 0%nat)
           (Tags pt)
  ∧ map_Forall (λ k v, count_byte LF k = 0%nat
                       ∧ count_byte LF (fmt_v v) = 0%nat)
               (Fields pt).

(** Both clients have been constructed. *)
Definition connected (i : Pipeline) : Prop :=
  is_Some (client i) ∧ is_Some (tsdbClient i).

End PipelineOut.

(** ** Concrete runtime, host and backends *)

Module Example.

(** A runtime that ranges over a map in the order of [map_to_list]. *)
Definition runtime : GoRuntime :=
  {| go_range := λ K _ _ V (m : gmap K V), map_to_list m;
     fmt_float64 := λ bits, "float64(" +:+ fmt_d bits +:+ ")" |}.

(** A host whose metrics are their own line-protocol text and whose parser
    knows one buffer, [text], which parses to [batch]. *)
Definition host (text : string) (batch : list Point) : Host :=
  {| Metric := string;
     Metric_Len := String.length;
     Reader_Read := λ metrics size, (String.concat "" metrics, None);
     ParsePoints := λ p,
       if String.eqb p text then (batch, None)
       else ([], Some "unable to parse");
     url_Parse := λ u, (before ":"%char u, None);
     pipeline_New := λ cfg, (Some (NewHandle (cfg_endpoint cfg)), None);
     tsdb_New := λ cfg, (Some (NewHandle (cfg_endpoint cfg)), None) |}.

Definition start (B : Backend) (w : World) : St := {| world := w; trace := [] |}.

(** The export objects of the pipeline service, by repo and export name:
    creating an export that exists is refused with code E18301, updating
    replaces the stored spec. Series creation answers [series]. *)
Definition exportStore (series : Reply) : Backend :=
  {| World := gmap (string * string) ExportTsdbSpec;
     respond := λ w c,
       match c with
       | CreateExport repo name _ _ spec =>
           match w !! (repo, name) with
           | Some _ => (fail "E18301: export already exists", w)
           | None => (ok, <[(repo, name) := spec]> w)
           end
       | UpdateExport repo name spec =>
           match w !! (repo, name) with
           | Some _ => (ok, <[(repo, name) := spec]> w)
           | None => (fail "E18302: export does not exist", w)
           end
       | TsdbCreateSeries _ _ _ => (series, w)
       | _ => (ok, w)
       end |}.

Definition at_store (series : Reply) (w : gmap (string * string) ExportTsdbSpec)
    (tr : list (Call * error)) : @St (exportStore series) :=
  @Build_St (exportStore series) w tr.

(** The TSDB service refuses every write: the series is missing. *)
Definition missingSeries : Backend :=
  stateless (λ c,
    match c with
    | TsdbPostPointsFromBytes _ _ => fail "E7101: series does not exist"
    | _ => ok
    end).

(** The pipeline service has no repo and refuses to create one. *)
Definition noRepo : Backend :=
  stateless (λ c,
    match c with
    | PostDataFromBytes _ _ => fail "E18102: repo does not exist"
    | GetRepo _ => fail "E18102: repo does not exist"
    | CreateRepo _ _ _ => fail "E18101: invalid repo name"
    | _ => ok
    end).

(** The pipeline service has no repo, creates it, and the TSDB service
    refuses to create its repo. *)
Definition noTsdbRepo : Backend :=
  stateless (λ c,
    match c with
    | PostDataFromBytes _ _ => fail "E18102: repo does not exist"
    | GetRepo _ => fail "E18102: repo does not exist"
    | TsdbCreateRepo _ _ => fail "E7001: repo quota exceeded"
    | _ => ok
    end).

(** Every call succeeds; [GetRepo] answers the given schema. *)
Definition allOk (schema : list RepoSchemaEntry) : Backend :=
  stateless (λ c,
    match c with
    | GetRepo _ => {| reply_err := None; reply_schema := schema |}
    | _ => ok
    end).

(** The service answers every write with the given error. *)
Definition refusing (msg : string) : Backend :=
  stateless (λ c,
    match c with
    | TsdbPostPointsFromBytes _ _ => fail msg
    | PostDataFromBytes _ _ => fail msg
    | _ => ok
    end).

Definition lines (l : list string) : string := String.concat (String LF "") l.

(** The buffer of the test [Test_createSeries]. *)
Definition test_points : string :=
  lines ["cpu,host=h1 value=123"; "gpu,region=g1 value=123";
         "test,host=h1 value=123"; "mem,host=h1 value=123"].

Definition two_cpu_lines : string :=
  lines ["cpu,host=h1 value=1"; "cpu,host=h2 value=2"].

Definition tsdb : Pandora.PandoraTSDB :=
  {| Pandora.URL := "https://tsdb.qiniu.com"; Pandora.AK := "ak";
     Pandora.SK := "sk"; Pandora.Repo := "telegraf";
     Pandora.RetentionPolicy := "3d"; Pandora.AutoCreateSeries := false;
     Pandora.Timeout := 5000000000%Z;
     Pandora.client := Some (NewHandle "https://tsdb.qiniu.com") |}.

Definition tsdb_auto : Pandora.PandoraTSDB :=
  {| Pandora.URL := "https://tsdb.qiniu.com"; Pandora.AK := "ak";
     Pandora.SK := "sk"; Pandora.Repo := "telegraf";
     Pandora.RetentionPolicy := "3d"; Pandora.AutoCreateSeries := true;
     Pandora.Timeout := 5000000000%Z;
     Pandora.client := Some (NewHandle "https://tsdb.qiniu.com") |}.

Definition pipe (auto : bool) : PipelineOut.Pipeline :=
  {| PipelineOut.URL := "https://pipeline.qiniu.com"; PipelineOut.AK := "ak";
     PipelineOut.SK := "sk"; PipelineOut.Repo := "monitor";
     PipelineOut.AutoCreateRepo := auto;
     PipelineOut.Timeout := 5000000000%Z;
     PipelineOut.client := Some (NewHandle "https://pipeline.qiniu.com");
     PipelineOut.tsdbClient := Some (NewHandle "https://tsdb.qiniu.com") |}.

(** One point whose tag and field share the key [host]:
    [cpu,host=a host=1i 1000]. *)
Definition cpu_host : Point :=
  {| Name := "cpu"; Tags := [("host", "a")];
     Fields := {[ "host" := V_int64 1 ]}; UnixNano := 1000 |}.

Definition cpu_usage (host : string) (usage ts : Z) : Point :=
  {| Name := "cpu"; Tags := [("host", host)];
     Fields := {[ "usage" := V_int64 usage ]}; UnixNano := ts |}.

Definition mem_used (host : string) (used ts : Z) : Point :=
  {| Name := "mem"; Tags := [("host", host)];
     Fields := {[ "used" := V_int64 used ]}; UnixNano := ts |}.

(** A point whose string field holds a newline:
    [cpu,host=a msg="disk<LF>full" 1000]. *)
Definition cpu_msg : Point :=
  {| Name := "cpu"; Tags := [("host", "a")];
     Fields := {[ "msg" := V_string ("disk" +:+ String LF "full") ]};
     UnixNano := 1000 |}.

Definition batch : list Point :=
  [cpu_usage "a" 10 1000; mem_used "a" 5 1000; cpu_usage "b" 20 2000].

Definition batch_text : string :=
  lines ["cpu,host=a usage=10i 1000"; "mem,host=a used=5i 1000";
         "cpu,host=b usage=20i 2000"; ""].

(** The error of the test [TestHTTPError_FieldTypeConflict] (without its
    quotation marks). *)
Definition conflict : string :=
  "field type conflict: input field value on measurement test is type integer, already exists as type float dropped=1".

(** The host of the examples, and the batch it parses. *)
Definition the_host : Host := host batch_text batch.

(** The adapter of the test [TestHTTPConnectError_InvalidURL], which
    [Connect] refuses, and its TSDB twin. *)
Definition unconnected : PipelineOut.Pipeline :=
  {| PipelineOut.URL := "htt://foobar:8089"; PipelineOut.AK := "";
     PipelineOut.SK := ""; PipelineOut.Repo := "test";
     PipelineOut.AutoCreateRepo := false;
     PipelineOut.Timeout := 5000000000%Z;
     PipelineOut.client := None; PipelineOut.tsdbClient := None |}.

Definition unconnected_tsdb : Pandora.PandoraTSDB :=
  {| Pandora.URL := "htt://foobar:8089"; Pandora.AK := ""; Pandora.SK := "";
     Pandora.Repo := "test"; Pandora.RetentionPolicy := "";
     Pandora.AutoCreateSeries := false; Pandora.Timeout := 5000000000%Z;
     Pandora.client := None |}.

(** A fresh adapter with the URL of the sample configuration. *)
Definition fresh : PipelineOut.Pipeline :=
  {| PipelineOut.URL := "https://pipeline.qiniu.com"; PipelineOut.AK := "ak";
     PipelineOut.SK := "sk"; PipelineOut.Repo := "monitor";
     PipelineOut.AutoCreateRepo := false;
     PipelineOut.Timeout := 5000000000%Z;
     PipelineOut.client := None; PipelineOut.tsdbClient := None |}.

(** An adapter with the pipeline client only. *)
Definition half : PipelineOut.Pipeline :=
  PipelineOut.with_client fresh (Some (NewHandle "https://pipeline.qiniu.com")).

(** A host whose TSDB constructor fails. *)
Definition host_no_tsdb : Host :=
  {| Metric := string;
     Metric_Len := String.length;
     Reader_Read := λ metrics size, (String.concat "" metrics, None);
     ParsePoints := λ p,
       if String.eqb p batch_text then (batch, None)
       else ([], Some "unable to parse");
     url_Parse := λ u, (before ":"%char u, None);
     pipeline_New := λ cfg, (Some (NewHandle (cfg_endpoint cfg)), None);
     tsdb_New := λ cfg, (None, Some "invalid endpoint") |}.

(** A host whose reader fills the buffer and reports the end of the
    metrics with it. *)
Definition eof_host : Host :=
  {| Metric := string;
     Metric_Len := String.length;
     Reader_Read := λ metrics size, (String.concat "" metrics, Some "EOF");
     ParsePoints := λ p,
       if String.eqb p batch_text then (batch, None)
       else ([], Some "unable to parse");
     url_Parse := λ u, (before ":"%char u, None);
     pipeline_New := λ cfg, (Some (NewHandle (cfg_endpoint cfg)), None);
     tsdb_New := λ cfg, (Some (NewHandle (cfg_endpoint cfg)), None) |}.

(** A host whose batches are empty. *)
Definition empty_host : Host := host "" [].

(** The pipeline service refuses to create exports, with the given error. *)
Definition exportRefused (msg : string) : Backend :=
  stateless (λ c,
    match c with
    | CreateExport _ _ _ _ _ => fail msg
    | _ => ok
    end).

End Example.

(** * Properties *)

(** ** Calls and traces *)

Section Calls.
Context `{Backend}.

Lemma call_Some h c st : call (Some h) c st = (Ret (answer st c), record st c).
Proof.
  unfold call, record, answer. by destruct (respond (world st) c).
Qed.

Lemma call_None c st : call None c st = (Panic, st).
Proof. done. Qed.

Lemma bind_Ret {A B} (m : M A) (k : A → M B) st a st' :
  m st = (Ret a, st') → bind m k st = k a st'.
Proof. unfold bind. by intros ->. Qed.

Lemma bind_Panic {A B} (m : M A) (k : A → M B) st st' :
  m st = (Panic, st') → bind m k st = (Panic, st').
Proof. unfold bind. by intros ->. Qed.

Lemma issued_refl st : issued st st [].
Proof. exists []. by rewrite app_nil_r. Qed.

Lemma issued_record st c : issued st (record st c) [c].
Proof. by exists [(c, reply_err (answer st c))]. Qed.

Lemma issued_trans st1 st2 st3 cs cs' :
  issued st1 st2 cs → issued st2 st3 cs' → issued st1 st3 (cs ++ cs').
Proof.
  intros (e1 & E1 & <-) (e2 & E2 & <-). exists (e1 ++ e2).
  by rewrite E2, E1, app_assoc, fmap_app.
Qed.

Lemma issued_inj st st' cs cs' : issued st st' cs → issued st st' cs' → cs = cs'.
Proof.
  intros (e1 & E1 & <-) (e2 & E2 & <-). rewrite E1 in E2.
  by apply app_inv_head in E2 as ->.
Qed.

End Calls.

(** ** [getSeries] *)

Lemma Split_length s c : length (Split s c) = S (count_byte c s).
Proof.
  induction s as [|d s IH]; simpl; [done|].
  destruct (Ascii.eqb d c); simpl; [by rewrite IH|].
  destruct (Split s c); simpl in *; lia.
Qed.

Lemma Split_hd s c : hd EmptyString (Split s c) = before c s.
Proof.
  induction s as [|d s IH]; simpl; [done|].
  destruct (Ascii.eqb d c); simpl; [done|].
  pose proof (Split_length s c) as Hl.
  destruct (Split s c); simpl in *; [lia|]. by rewrite IH.
Qed.

Lemma String_length_0 s : (String.length s =? 0)%nat = bool_decide (s = "").
Proof. destruct s; by simpl. Qed.

Lemma getSeries_loop ls acc :
  fold_left
    (λ series line,
       if (String.length line =? 0)%nat then series
       else
         let ss := Split line comma in
         if (1 <? length ss)%nat then series ++ [hd EmptyString ss]
         else series) ls acc
  = acc ++ (before comma <$>
              filter (λ l, l ≠ "" ∧ (0 < count_byte comma l)%nat) ls).
Proof.
  revert acc. induction ls as [|l ls IH]; intros acc; simpl.
  { by rewrite app_nil_r. }
  rewrite IH, String_length_0, Split_length, Split_hd.
  rewrite filter_cons. case_bool_decide as Hl.
  - subst l. rewrite decide_False by (by intros [? _]). done.
  - destruct (Nat.ltb_spec 1 (S (count_byte comma l))).
    + rewrite decide_True by (split; [done|lia]).
      by rewrite fmap_cons, <- app_assoc.
    + rewrite decide_False by (intros [_ ?]; lia). done.
Qed.

(** C3 (as the code has it). [getSeries] returns, in the order of the
    input, the text in front of the first comma of every non-empty line
    that contains a comma: one entry per such line, so a series that is on
    several lines is listed once per line; for the buffer of
    [Test_createSeries] the result is [cpu; gpu; test; mem]. *)
Theorem getSeries_one_name_per_line points :
  Pandora.getSeries points
  = (before comma <$>
       filter (λ l, l ≠ "" ∧ (0 < count_byte comma l)%nat) (Split points LF))
  ∧ Pandora.getSeries Example.test_points = ["cpu"; "gpu"; "test"; "mem"].
Proof.
  split; [|done]. unfold Pandora.getSeries. by rewrite getSeries_loop.
Qed.

(** C3, the claim as written fails: two lines of the series [cpu] give the
    name twice, so the result is not duplicate-free. *)
Lemma getSeries_keeps_duplicates :
  Pandora.getSeries Example.two_cpu_lines = ["cpu"; "cpu"]
  ∧ ¬ NoDup (Pandora.getSeries Example.two_cpu_lines).
Proof.
  split; [done|]. intros Hnd. vm_compute in Hnd.
  apply NoDup_cons in Hnd as [Hin _]. apply Hin. left.
Qed.

(** ** The TSDB output: [PandoraTSDB.Write] *)

Section Tsdb.
Context {host : Host} {backend : Backend}.
Implicit Types (i : Pandora.PandoraTSDB) (st : St).

Lemma createSeries_loop h repo retention (l : list string) err st :
  ∃ err' st',
    for_err (λ s, r ←← call (Some h) (TsdbCreateSeries repo s retention) ;;
                  ret (reply_err r)) l err st = (Ret err', st')
    ∧ issued st st' ((λ s, TsdbCreateSeries repo s retention) <$> l).
Proof.
  revert err st. induction l as [|s l IH]; intros err st; simpl.
  { exists err, st. split; [done|apply issued_refl]. }
  unfold bind at 1. unfold bind at 1. rewrite call_Some. simpl.
  destruct (IH (reply_err (answer st (TsdbCreateSeries repo s retention)))
               (record st (TsdbCreateSeries repo s retention)))
    as (err' & st' & -> & Hiss).
  exists err', st'. split; [done|].
  apply (issued_trans _ _ _ [_] _ (issued_record _ _) Hiss).
Qed.

Lemma createSeries_returns h repo retention points st :
  ∃ err st',
    Pandora.createSeries repo retention points (Some h) st = (Ret err, st')
    ∧ issued st st'
        ((λ s, TsdbCreateSeries repo s retention) <$> Pandora.getSeries points).
Proof. apply createSeries_loop. Qed.

(** C10. When the backend refuses the write with an error that does not
    contain "field type conflict", [Write] returns the sentinel error and
    not the error of the backend. With code E7101 in the error and
    [auto_create_series] on, one series creation per name of [getSeries]
    is issued after the write, and whatever these answer, the sentinel is
    still what [Write] returns; in every other case the write is the only
    call. *)
Theorem tsdb_write_failure_returns_sentinel i metrics st h buf e :
  Pandora.client i = Some h →
  Reader_Read metrics (sum_list (Metric_Len <$> metrics)) = (buf, None) →
  reply_err (answer st (Pandora.post i buf)) = Some e →
  Contains e "field type conflict" = false →
  ∃ st',
    Pandora.Write i metrics st = (Ret (Some Pandora.sentinel), st')
    ∧ issued st st'
        (Pandora.post i buf ::
         if Contains e "E7101" && Pandora.AutoCreateSeries i
         then Pandora.series_calls i buf else []).
Proof.
  intros Hc Hread He Hconflict. unfold Pandora.Write.
  rewrite Hread, Hc. unfold bind at 1. rewrite call_Some.
  fold (Pandora.post i buf). rewrite He, Hconflict.
  destruct (Contains e "E7101" && Pandora.AutoCreateSeries i).
  - destruct (createSeries_returns h (Pandora.Repo i) (Pandora.RetentionPolicy i)
                buf (record st (Pandora.post i buf))) as (err & st' & Hcs & Hiss).
    exists st'. rewrite (bind_Ret _ _ _ _ _ Hcs). split; [done|].
    apply (issued_trans _ _ _ [_] _ (issued_record _ _) Hiss).
  - exists (record st (Pandora.post i buf)). split; [done|apply issued_record].
Qed.

(** C5. When the error of the backend contains "field type conflict",
    [PandoraTSDB.Write] returns nil, and the refused write is the only
    call of the invocation: nothing is written a second time. *)
Theorem tsdb_field_type_conflict_dropped i metrics st h buf e :
  Pandora.client i = Some h →
  Reader_Read metrics (sum_list (Metric_Len <$> metrics)) = (buf, None) →
  reply_err (answer st (Pandora.post i buf)) = Some e →
  Contains e "field type conflict" = true →
  Pandora.Write i metrics st = (Ret None, record st (Pandora.post i buf))
  ∧ trace (record st (Pandora.post i buf)) = trace st ++ [(Pandora.post i buf, Some e)].
Proof.
  intros Hc Hread He Hconflict. split.
  - unfold Pandora.Write. rewrite Hread, Hc. unfold bind at 1.
    rewrite call_Some. fold (Pandora.post i buf). by rewrite He, Hconflict.
  - unfold record; simpl. by rewrite He.
Qed.

(** The TSDB half of C4 and C7: what [Write] does without auto-creation on
    a missing series, and on a [nil] client. *)
Lemma tsdb_missing_series_without_auto_create i metrics st h buf e :
  Pandora.client i = Some h →
  Reader_Read metrics (sum_list (Metric_Len <$> metrics)) = (buf, None) →
  reply_err (answer st (Pandora.post i buf)) = Some e →
  Contains e "field type conflict" = false →
  Pandora.AutoCreateSeries i = false →
  Pandora.Write i metrics st
  = (Ret (Some Pandora.sentinel), record st (Pandora.post i buf)).
Proof.
  intros Hc Hread He Hconflict Hauto. unfold Pandora.Write.
  rewrite Hread, Hc. unfold bind at 1. rewrite call_Some.
  fold (Pandora.post i buf). rewrite He, Hconflict, Hauto.
  by rewrite andb_false_r.
Qed.

Lemma tsdb_write_nil_client i metrics st :
  Pandora.client i = None →
  Pandora.Write i metrics st
  = match Reader_Read metrics (sum_list (Metric_Len <$> metrics)) with
    | (_, Some e) => (Ret (Some e), st)
    | (_, None) => (Panic, st)
    end.
Proof.
  intros Hc. unfold Pandora.Write.
  destruct (Reader_Read _ _) as [buf [e|]]; [done|]. by rewrite Hc.
Qed.

End Tsdb.

(** ** The Pipeline output: exports *)

Import PipelineOut.

Section Loops.
Context {backend : Backend}.

Lemma bind_ret_id {A} (m : M A) st : bind m ret st = m st.
Proof. unfold bind, ret. by destruct (m st) as [[a|] st']. Qed.

(** A loop whose body returns, issuing at least one call, returns, and
    issues at least one call per element. *)
Lemma for_err_returns {A} (body : A → M error) (l : list A) err st :
  (∀ x st, ∃ e st' cs, body x st = (Ret e, st') ∧ issued st st' cs ∧ cs ≠ []) →
  ∃ e st' cs,
    for_err body l err st = (Ret e, st') ∧ issued st st' cs
    ∧ (length l ≤ length cs)%nat.
Proof.
  intros Hbody. revert err st. induction l as [|x l IH]; intros err st; simpl.
  { exists err, st, []. split; [done|]. split; [apply issued_refl|done]. }
  destruct (Hbody x st) as (e1 & st1 & cs1 & Hx & Hiss1 & Hne).
  rewrite (bind_Ret _ _ _ _ _ Hx).
  destruct (IH e1 st1) as (e & st' & cs & Hl & Hiss & Hlen).
  exists e, st', (cs1 ++ cs). split; [done|].
  split; [by eapply issued_trans|].
  rewrite length_app. destruct cs1; [done|simpl; lia].
Qed.

End Loops.

Section Exports.
Context {runtime : GoRuntime} {backend : Backend}.
Implicit Types (i : Pipeline) (st : St).

(** [createOrUpdateExport] on a connected adapter, call by call. *)
Lemma createOrUpdateExport_run i s tags fields st :
  connected i →
  let st1 := record st (create_series i s) in
  let c2 := create_export i s tags fields in
  let st2 := record st1 c2 in
  let c3 := update_export i s tags fields in
  createOrUpdateExport i s tags fields st
  = match reply_err (answer st1 c2) with
    | Some e =>
        if Contains e "E18301"
        then (Ret (reply_err (answer st2 c3)), record st2 c3)
        else (Ret (Some e), st2)
    | None => (Ret None, st2)
    end.
Proof.
  intros [[h Hc] [h' Ht]]. simpl. unfold createOrUpdateExport.
  rewrite Hc, Ht. unfold bind at 1. rewrite call_Some.
  fold (create_series i s). unfold bind at 1. rewrite call_Some.
  fold (create_export i s tags fields).
  destruct (reply_err (answer _ (create_export i s tags fields))) as [e|];
    [|done].
  destruct (Contains e "E18301"); [|done].
  unfold bind. rewrite call_Some. done.
Qed.

Lemma createOrUpdateExport_returns i s tags fields st :
  connected i →
  ∃ e st' cs,
    createOrUpdateExport i s tags fields st = (Ret e, st')
    ∧ issued st st' cs ∧ cs ≠ [].
Proof.
  intros Hi. rewrite (createOrUpdateExport_run _ _ _ _ _ Hi).
  set (st1 := record st (create_series i s)).
  set (c2 := create_export i s tags fields).
  set (st2 := record st1 c2).
  set (c3 := update_export i s tags fields).
  assert (issued st st2 [create_series i s; c2]) as H2.
  { apply (issued_trans _ st1 _ [_] [_]); apply issued_record. }
  destruct (reply_err (answer st1 c2)) as [e|].
  - destruct (Contains e "E18301").
    + exists (reply_err (answer st2 c3)), (record st2 c3),
        ([create_series i s; c2] ++ [c3]).
      split; [done|]. split; [|done].
      apply (issued_trans _ _ _ _ _ H2), issued_record.
    + eexists _, _, _. split; [done|]. split; [exact H2|done].
  - eexists _, _, _. split; [done|]. split; [exact H2|done].
Qed.

Lemma updateExport_returns i points st :
  connected i →
  ∃ e st' cs,
    updateExport i points st = (Ret e, st') ∧ issued st st' cs
    ∧ (length (go_range (measurementsOf points)) ≤ length cs)%nat.
Proof.
  intros Hi. apply for_err_returns. intros kv st0.
  by apply createOrUpdateExport_returns.
Qed.

End Exports.

(** ** The Pipeline output: [updateSchema] and [Write] *)

Section Reconcile.
Context {runtime : GoRuntime} {host : Host} {backend : Backend}.
Implicit Types (i : Pipeline) (st : St).

(** [updateSchema] on a connected adapter, call by call. *)
Lemma updateSchema_run i points st :
  connected i →
  let st1 := record st (get_repo i) in
  let schema := reply_schema (answer st (get_repo i)) in
  let createRepo :=
    match reply_err (answer st (get_repo i)) with
    | Some e => Contains e "E18102"
    | None => false
    end in
  updateSchema i points st
  = if createRepo then
      let c := CreateRepo (Repo i) "nb" (payload schema points) in
      match reply_err (answer st1 c) with
      | Some e => (Ret (Some e), record st1 c)
      | None =>
          updateExport i points
            (record (record st1 c) (TsdbCreateRepo (Repo i) "nb"))
      end
    else
      updateExport i points
        (record st1 (UpdateRepo (Repo i) (payload schema points))).
Proof.
  intros [[h Hc] [h' Ht]]. simpl. unfold updateSchema, payload.
  destruct (extractSchemaFromPoints points) as [tags fields]. simpl.
  rewrite Hc, Ht. unfold bind at 1. rewrite call_Some. fold (get_repo i).
  destruct (match reply_err (answer st (get_repo i)) with
            | Some e => Contains e "E18102"
            | None => false
            end).
  - unfold bind at 1. rewrite call_Some.
    destruct (reply_err (answer _ (CreateRepo _ _ _))) as [e|]; [done|].
    unfold bind at 1. rewrite call_Some. apply bind_ret_id.
  - unfold bind at 1. rewrite call_Some.
    unfold bind. destruct (updateExport i points _) as [[[e|]|] st']; done.
Qed.

Lemma updateSchema_returns i points st :
  connected i → ∃ e st', updateSchema i points st = (Ret e, st').
Proof.
  intros Hi. rewrite (updateSchema_run _ _ _ Hi). simpl.
  destruct (match reply_err (answer st (get_repo i)) with
            | Some e => Contains e "E18102"
            | None => false
            end).
  - destruct (reply_err (answer _ (CreateRepo _ _ _))) as [e|]; [by eauto|].
    destruct (updateExport_returns i points
      (record (record (record st (get_repo i))
         (CreateRepo (Repo i) "nb"
            (payload (reply_schema (answer st (get_repo i))) points)))
         (TsdbCreateRepo (Repo i) "nb")) Hi) as (e & st' & cs & -> & _).
    eauto.
  - destruct (updateExport_returns i points
      (record (record st (get_repo i))
         (UpdateRepo (Repo i)
            (payload (reply_schema (answer st (get_repo i))) points))) Hi)
      as (e & st' & cs & -> & _).
    eauto.
Qed.

(** [Write] on an adapter with a pipeline client, once the batch has been
    parsed. *)
Lemma Write_run i now metrics pts st h :
  client i = Some h →
  readPoints metrics = inr pts →
  Write i now metrics st
  = let st1 := record st (post i pts) in
    match reply_err (answer st (post i pts)) with
    | Some e =>
        if Contains e "E18102" then
          if AutoCreateRepo i then updateSchema i pts st1 else (Ret None, st1)
        else if Contains e "E18111" then
          if AutoCreateRepo i then updateSchema i pts st1 else (Ret None, st1)
        else (Ret None, st1)
    | None =>
        if (Z.rem now 60 <? 11)%Z then
          match updateExport i pts st1 with
          | (Ret _, st') => (Ret None, st')
          | (Panic, st') => (Panic, st')
          end
        else (Ret None, st1)
    end.
Proof.
  intros Hc Hread. unfold Write. rewrite Hread, Hc.
  unfold bind at 1. rewrite call_Some. fold (post i pts). simpl.
  destruct (reply_err (answer st (post i pts))) as [e|].
  - destruct (Contains e "E18102"), (Contains e "E18111"),
      (AutoCreateRepo i); done.
  - destruct (Z.rem now 60 <? 11)%Z; [|done].
    unfold bind. by destruct (updateExport i pts _) as [[a|] st'].
Qed.

(** The Pipeline half of C7: [Write] on a [nil] client. *)
Lemma pipeline_write_nil_client i now metrics st :
  client i = None →
  Write i now metrics st
  = match readPoints metrics with
    | inl e => (Ret (Some e), st)
    | inr _ => (Panic, st)
    end.
Proof.
  intros Hc. unfold Write. destruct (readPoints metrics); [done|].
  by rewrite Hc.
Qed.

End Reconcile.

Section WriteClaims.
Context {runtime : GoRuntime} {host : Host} {backend : Backend}.
Implicit Types (i : Pipeline) (st : St).

(** C4 (as the code has it). Without auto-creation a missing backend
    object is handled differently by the two outputs. Pipeline: a write
    error with code E18102 and [auto_create_repo] off makes [Write] return
    nil, the refused write being its only call. TSDB: a write error with
    code E7101 (and without "field type conflict") and
    [auto_create_series] off makes [Write] return the sentinel error, the
    refused write being its only call. *)
Theorem missing_object_without_auto_create :
  (∀ i now metrics pts st h e,
     client i = Some h →
     readPoints metrics = inr pts →
     reply_err (answer st (post i pts)) = Some e →
     Contains e "E18102" = true →
     AutoCreateRepo i = false →
     Write i now metrics st = (Ret None, record st (post i pts)))
  ∧ (∀ (i : Pandora.PandoraTSDB) metrics st h buf e,
     Pandora.client i = Some h →
     Reader_Read metrics (sum_list (Metric_Len <$> metrics)) = (buf, None) →
     reply_err (answer st (Pandora.post i buf)) = Some e →
     Contains e "E7101" = true →
     Contains e "field type conflict" = false →
     Pandora.AutoCreateSeries i = false →
     Pandora.Write i metrics st
     = (Ret (Some Pandora.sentinel), record st (Pandora.post i buf))).
Proof.
  split.
  - intros i now metrics pts st h e Hc Hread He H102 Hauto.
    rewrite (Write_run _ _ _ _ _ _ Hc Hread). simpl.
    by rewrite He, H102, Hauto.
  - intros i metrics st h buf e Hc Hread He _ Hconflict Hauto.
    by eapply tsdb_missing_series_without_auto_create.
Qed.

(** C7 (as the code has it). [Write] does not check that the adapter is
    connected. On an adapter whose client is nil, as it is on a fresh
    adapter, [Write] returns an error only when reading or parsing the
    batch fails; when the batch is readable, the call of the backend
    through the nil client panics. *)
Theorem write_on_nil_client :
  (∀ i now metrics st,
     client i = None →
     Write i now metrics st
     = match readPoints metrics with
       | inl e => (Ret (Some e), st)
       | inr _ => (Panic, st)
       end)
  ∧ (∀ (i : Pandora.PandoraTSDB) metrics st,
     Pandora.client i = None →
     Pandora.Write i metrics st
     = match Reader_Read metrics (sum_list (Metric_Len <$> metrics)) with
       | (_, Some e) => (Ret (Some e), st)
       | (_, None) => (Panic, st)
       end)
  ∧ client newPipeline = None
  ∧ Pandora.client Pandora.newPandoraTSDB = None.
Proof.
  split; [|split; [|done]].
  - intros. by apply pipeline_write_nil_client.
  - intros. by apply tsdb_write_nil_client.
Qed.

Lemma fold_alter_is_Some {A V} (f : A → V → V) (k : string) (l : list A)
    (m : gmap string V) :
  is_Some (m !! k) →
  is_Some (fold_left (λ ms a, alter (f a) k ms) l m !! k).
Proof.
  revert m. induction l as [|a l IH]; intros m Hm; simpl; [done|].
  apply IH. rewrite lookup_alter_eq. by apply fmap_is_Some.
Qed.

Lemma measurementsOf_last pts pt :
  is_Some (measurementsOf (pts ++ [pt]) !! Name pt).
Proof.
  unfold measurementsOf. rewrite fold_left_app. simpl.
  apply (fold_alter_is_Some (λ field v, (v.1, <[field.1 := ()]> v.2))).
  apply (fold_alter_is_Some (λ tag v, (<[tag.1 := ()]> v.1, v.2))).
  set (m := fold_left _ pts ∅).
  destruct (m !! Name pt) as [v|] eqn:E; [by rewrite E|].
  by rewrite lookup_insert_eq.
Qed.

Lemma measurementsOf_nonempty pts :
  GoRangeOk runtime → pts ≠ [] →
  (0 < length (go_range (measurementsOf pts)))%nat.
Proof.
  intros Hok Hne. rewrite (Permutation_length (Hok _ _ _ _ _)).
  rewrite length_map_to_list.
  destruct pts as [|p pts _] using rev_ind; [done|].
  destruct (measurementsOf_last pts p) as [v Hv].
  destruct (decide (size (measurementsOf (pts ++ [p])) = 0)) as [H0|]; [|lia].
  apply map_size_empty_iff in H0. by rewrite H0, lookup_empty in Hv.
Qed.

(** C8. After a successful backend write on a connected adapter, [Write]
    returns nil. It runs [updateExport] over the points it has written
    exactly when the wall-clock second, [now % 60], is less than 11: then
    the state after [Write] is the state after [updateExport], whatever
    that returned (and it has issued at least one more call when the batch
    has a point); otherwise the write is the only call. *)
Theorem opportunistic_export_refresh i now metrics pts st :
  connected i →
  readPoints metrics = inr pts →
  reply_err (answer st (post i pts)) = None →
  let st1 := record st (post i pts) in
  ∃ st',
    Write i now metrics st = (Ret None, st')
    ∧ st' = (if (Z.rem now 60 <? 11)%Z
             then (updateExport i pts st1).2 else st1)
    ∧ ((Z.rem now 60 < 11)%Z → GoRangeOk runtime → pts ≠ [] →
       (length (trace st1) < length (trace st'))%nat)
    ∧ (¬ (Z.rem now 60 < 11)%Z → st' = st1).
Proof.
  intros Hi Hread He st1. destruct (Hi) as [[h Hc] _].
  rewrite (Write_run _ _ _ _ _ _ Hc Hread). cbv zeta. rewrite He. fold st1.
  destruct (updateExport_returns i pts st1 Hi)
    as (e & st' & cs & Hrun & (evs & Hevs & Hcs) & Hlen).
  destruct (Z.ltb_spec (Z.rem now 60) 11) as [Hlt|Hge].
  - exists st'. rewrite Hrun. split; [done|]. split; [done|].
    split; [|lia]. intros _ Hok Hne.
    pose proof (measurementsOf_nonempty pts Hok Hne).
    clearbody st1. rewrite Hevs, length_app. apply (f_equal length) in Hcs.
    rewrite length_fmap in Hcs. lia.
  - exists st1. split; [done|]. split; [done|]. split; [lia|done].
Qed.

End WriteClaims.

Section Bootstrap.
Context {runtime : GoRuntime} {backend : Backend}.
Implicit Types (i : Pipeline) (st : St).

(** C2 (as the code has it). In the bootstrap branch of [updateSchema]
    (the fetch of the repo failed with code E18102), a failure to create
    the pipeline repo is returned as the error of the reconciliation, and
    the reconciliation stops there: no TSDB repo, series or export is
    created. When both repos are created, the reconciliation returns what
    [updateExport] returns. Inside [createOrUpdateExport] a failure to
    create the series is never returned: when the export is created, the
    result is nil whatever the series creation answered. *)
Theorem bootstrap_escalation i points st e :
  connected i →
  reply_err (answer st (get_repo i)) = Some e →
  Contains e "E18102" = true →
  let st1 := record st (get_repo i) in
  let create :=
    CreateRepo (Repo i) "nb"
      (payload (reply_schema (answer st (get_repo i))) points) in
  let st2 := record st1 create in
  let st3 := record st2 (TsdbCreateRepo (Repo i) "nb") in
  (∀ e', reply_err (answer st1 create) = Some e' →
     updateSchema i points st = (Ret (Some e'), st2))
  ∧ (reply_err (answer st1 create) = None →
     reply_err (answer st2 (TsdbCreateRepo (Repo i) "nb")) = None →
     updateSchema i points st = updateExport i points st3)
  ∧ (∀ s tags fields st0,
     reply_err (answer (record st0 (create_series i s))
                       (create_export i s tags fields)) = None →
     createOrUpdateExport i s tags fields st0
     = (Ret None,
        record (record st0 (create_series i s)) (create_export i s tags fields))).
Proof.
  intros Hi Hget H102. cbv zeta.
  pose proof (updateSchema_run i points st Hi) as Hrun. cbv zeta in Hrun.
  rewrite Hget, H102 in Hrun. split; [|split].
  - intros e' He'. by rewrite Hrun, He'.
  - intros Hcreate _. by rewrite Hrun, Hcreate.
  - intros s tags fields st0 Hexp.
    rewrite (createOrUpdateExport_run _ _ _ _ _ Hi). cbv zeta.
    by rewrite Hexp.
Qed.

End Bootstrap.

Section ExportStore.
Context {runtime : GoRuntime} (series : Reply).
Implicit Types (i : Pipeline) (w : gmap (string * string) ExportTsdbSpec).

(** One run on a store without the export: the export is created. *)
Lemma createOrUpdateExport_creates i s tags fields w tr :
  connected i →
  w !! (Repo i, exportName s) = None →
  createOrUpdateExport i s tags fields (Example.at_store series w tr)
  = (Ret None,
     Example.at_store series (<[(Repo i, exportName s) := exportSpec i s tags fields]> w)
       (tr ++ [(create_series i s, reply_err series);
               (create_export i s tags fields, None)])).
Proof.
  intros Hi Hw. rewrite (createOrUpdateExport_run _ _ _ _ _ Hi). cbv zeta.
  unfold record, answer, Example.at_store; simpl. rewrite Hw; simpl.
  by rewrite <- app_assoc.
Qed.

(** One run on a store with the export: the creation is refused and the
    export is updated. *)
Lemma createOrUpdateExport_updates i s tags fields w tr old :
  connected i →
  w !! (Repo i, exportName s) = Some old →
  createOrUpdateExport i s tags fields (Example.at_store series w tr)
  = (Ret None,
     Example.at_store series (<[(Repo i, exportName s) := exportSpec i s tags fields]> w)
       (tr ++ [(create_series i s, reply_err series);
               (create_export i s tags fields,
                Some "E18301: export already exists");
               (update_export i s tags fields, None)])).
Proof.
  intros Hi Hw. rewrite (createOrUpdateExport_run _ _ _ _ _ Hi). cbv zeta.
  unfold record, answer, Example.at_store; simpl. rewrite Hw; simpl.
  rewrite Hw; simpl. by rewrite <- !app_assoc.
Qed.

End ExportStore.

(** C6. On an export store that has no export of the series yet, two runs
    of [createOrUpdateExport] create the export once and update it once:
    the first run creates it; the creation of the second run is refused
    with code E18301 and the run then updates the export with the spec of
    its own tag and field sets, which replaces the stored spec. With the
    same sets in both runs the spec sent with the update is the spec sent
    with the creation, and the store after both runs is the store after
    the first one. Both runs return nil. *)
Theorem createOrUpdateExport_idempotent {runtime : GoRuntime} (series : Reply)
    (i : Pipeline) (s : string) (tags fields tags2 fields2 : gmap string unit)
    (w : gmap (string * string) ExportTsdbSpec) :
  connected i →
  w !! (Repo i, exportName s) = None →
  let st0 := Example.start (Example.exportStore series) w in
  ∃ st1 st2,
    createOrUpdateExport i s tags fields st0 = (Ret None, st1)
    ∧ createOrUpdateExport i s tags2 fields2 st1 = (Ret None, st2)
    ∧ trace st1 =
        [(create_series i s, reply_err series);
         (create_export i s tags fields, None)]
    ∧ trace st2 = trace st1 ++
        [(create_series i s, reply_err series);
         (create_export i s tags2 fields2,
          Some "E18301: export already exists");
         (update_export i s tags2 fields2, None)]
    ∧ world st1 = <[(Repo i, exportName s) := exportSpec i s tags fields]> w
    ∧ world st2 = <[(Repo i, exportName s) := exportSpec i s tags2 fields2]> w
    ∧ (tags2 = tags → fields2 = fields →
       update_export i s tags2 fields2 = update_export i s tags fields
       ∧ world st2 = world st1).
Proof.
  intros Hi Hw st0.
  pose proof (createOrUpdateExport_creates series i s tags fields w [] Hi Hw)
    as H1.
  set (w1 := <[(Repo i, exportName s) := exportSpec i s tags fields]> w) in *.
  assert (w1 !! (Repo i, exportName s) = Some (exportSpec i s tags fields))
    as Hw1 by apply lookup_insert_eq.
  pose proof (createOrUpdateExport_updates series i s tags2 fields2 w1
                ([] ++ [(create_series i s, reply_err series);
                        (create_export i s tags fields, None)]) _ Hi Hw1)
    as H2.
  eexists _, _. split; [exact H1|]. split; [exact H2|]. simpl.
  split; [done|]. split; [done|]. split; [done|]. unfold w1.
  split; [by rewrite insert_insert_eq|].
  intros -> ->. split; [done|]. by rewrite insert_insert_eq.
Qed.

(** ** The Pipeline output: the buffer of [Write] *)

Lemma append_cons (x : ascii) (a b : string) :
  String x a +:+ b = String x (a +:+ b).
Proof. reflexivity. Qed.

Lemma append_assoc (a b c : string) : (a +:+ b) +:+ c = a +:+ (b +:+ c).
Proof.
  induction a as [|x a IH]; [done|]. by rewrite !append_cons, IH.
Qed.

Lemma append_nil_r (a : string) : a +:+ "" = a.
Proof.
  induction a as [|x a IH]; [done|]. by rewrite append_cons, IH.
Qed.

Lemma fold_left_ext {A B} (f g : A → B → A) (l : list B) (a : A) :
  (∀ a b, f a b = g a b) → fold_left f l a = fold_left g l a.
Proof.
  intros Hfg. revert a. induction l as [|b l IH]; intros a; simpl; [done|].
  by rewrite Hfg, IH.
Qed.

Lemma fold_left_append {A} (f : A → string) (l : list A) (d : string) :
  fold_left (λ data x, data +:+ f x) l d = d +:+ join (f <$> l).
Proof.
  revert d. induction l as [|x l IH]; intros d; simpl.
  { by rewrite append_nil_r. }
  by rewrite IH, append_assoc.
Qed.

Lemma count_byte_append c (a b : string) :
  count_byte c (a +:+ b) = (count_byte c a + count_byte c b)%nat.
Proof.
  induction a as [|x a IH]; [done|].
  rewrite append_cons. simpl. rewrite IH. lia.
Qed.

Lemma count_byte_join c (ls : list string) :
  count_byte c (join ls) = sum_list (count_byte c <$> ls).
Proof.
  induction ls as [|l ls IH]; [done|].
  simpl. by rewrite count_byte_append, IH.
Qed.

Lemma count_byte_fmt_d (z : Z) : count_byte LF (fmt_d z) = 0%nat.
Proof.
  assert (∀ u, count_byte LF (NilEmpty.string_of_uint u) = 0%nat) as Hempty.
  { induction u; simpl; done. }
  assert (∀ u, count_byte LF (NilZero.string_of_uint u) = 0%nat) as Hzero.
  { intros u. destruct u; try done; apply (Hempty (_ u)). }
  unfold fmt_d. destruct (Z.to_int z) as [u|u]; simpl; [apply Hzero|].
  by rewrite Hzero.
Qed.

Section Serialize.
Context {runtime : GoRuntime}.

Lemma convertTag_count name (tags : list (string * string)) :
  count_byte LF name = 0%nat →
  Forall (λ kv, count_byte LF kv.1 = 0%nat ∧ count_byte LF kv.2 = 0%nat) tags →
  count_byte LF (convertTag name tags) = 0%nat.
Proof.
  intros Hname Htags. unfold convertTag.
  rewrite (fold_left_append
    (λ val, name +:+ "_" +:+ val.1 +:+ "=" +:+ val.2 +:+ TAB)).
  rewrite count_byte_append, count_byte_join, <- list_fmap_compose. simpl.
  rewrite (sum_list_fmap_same 0); [lia|].
  eapply Forall_impl; [exact Htags|]. intros [k v] [Hk Hv]. simpl in *.
  rewrite !count_byte_append, Hname, Hk, Hv. done.
Qed.

Lemma convertField_count name (fields : gmap string GoValue) :
  GoRangeOk runtime →
  count_byte LF name = 0%nat →
  map_Forall (λ k v, count_byte LF k = 0%nat
                     ∧ count_byte LF (fmt_v v) = 0%nat) fields →
  count_byte LF (convertField name fields) = 0%nat.
Proof.
  intros Hok Hname Hfields. unfold convertField.
  rewrite (fold_left_append
    (λ kv, name +:+ "_" +:+ kv.1 +:+ "=" +:+ fmt_v kv.2 +:+ TAB)).
  rewrite count_byte_append, count_byte_join, <- list_fmap_compose. simpl.
  rewrite (sum_list_fmap_same 0); [lia|].
  apply Forall_forall. intros [k v] Hin. rewrite (Hok _ _ _ _ _) in Hin.
  apply elem_of_map_to_list in Hin. destruct (Hfields k v Hin) as [Hk Hv].
  simpl. rewrite !count_byte_append, Hname, Hk, Hv. done.
Qed.

Lemma lineBody_from data ps :
  fold_left
    (λ data pt,
       let repoName := Name pt in
       let data := data +:+ convertTag repoName (Tags pt) in
       data +:+ convertField repoName (Fields pt))
    ps data
  = data +:+ lineBody ps.
Proof.
  assert (∀ d,
    fold_left
      (λ data pt,
         let repoName := Name pt in
         let data := data +:+ convertTag repoName (Tags pt) in
         data +:+ convertField repoName (Fields pt)) ps d
    = d +:+ join ((λ pt, convertTag (Name pt) (Tags pt)
                          +:+ convertField (Name pt) (Fields pt)) <$> ps))
    as Hfold.
  { intros d. rewrite <- fold_left_append. apply fold_left_ext.
    intros d' pt. apply append_assoc. }
  unfold lineBody. by rewrite !Hfold.
Qed.

Lemma lineBody_count (ps : list Point) :
  GoRangeOk runtime →
  Forall newlineFree ps →
  count_byte LF (lineBody ps) = 0%nat.
Proof.
  intros Hok Hps. unfold lineBody.
  rewrite (fold_left_ext _
    (λ d pt, d +:+ (convertTag (Name pt) (Tags pt)
                      +:+ convertField (Name pt) (Fields pt))))
    by (intros d pt; apply append_assoc).
  rewrite fold_left_append, count_byte_append, count_byte_join,
    <- list_fmap_compose. simpl.
  rewrite (sum_list_fmap_same 0); [lia|].
  eapply Forall_impl; [exact Hps|]. intros pt (Hname & Htags & Hfields).
  simpl. rewrite count_byte_append, convertTag_count, convertField_count; done.
Qed.

Lemma lineOf_count (g : Z * list Point) :
  GoRangeOk runtime →
  Forall newlineFree g.2 →
  count_byte LF (lineOf g) = 1%nat.
Proof.
  intros Hok Hps. unfold lineOf.
  rewrite !count_byte_append, count_byte_fmt_d, lineBody_count by done.
  done.
Qed.

Lemma line_lineOf data ts ps : line data ts ps = data +:+ lineOf (ts, ps).
Proof.
  unfold line, lineOf. simpl. rewrite lineBody_from. apply append_assoc.
Qed.

Lemma serialize_join pts :
  serialize pts = join (lineOf <$> go_range (groupByTimestamp pts)).
Proof.
  unfold serialize.
  rewrite (fold_left_ext _ (λ data g, data +:+ lineOf g))
    by (intros d [ts ps]; apply line_lineOf).
  by rewrite fold_left_append.
Qed.

(** The group of a timestamp holds the points with that timestamp, in the
    order of the batch. *)
Lemma groupByTimestamp_lookup pts ts :
  groupByTimestamp pts !! ts
  = if decide (ts ∈ UnixNano <$> pts)
    then Some (filter (λ p, UnixNano p = ts) pts) else None.
Proof.
  revert ts. induction pts as [|pt pts IH] using rev_ind; intros ts.
  { unfold groupByTimestamp. simpl fold_left. rewrite lookup_empty.
    case_decide as Hin; [|done]. by apply elem_of_nil in Hin. }
  unfold groupByTimestamp in *. rewrite fold_left_app. simpl.
  set (m := fold_left _ pts ∅) in *.
  assert (default [] (match m !! UnixNano pt with
                      | Some _ => m
                      | None => <[UnixNano pt := []]> m
                      end !! UnixNano pt)
          = filter (λ p, UnixNano p = UnixNano pt) pts) as Hdef.
  { destruct (m !! UnixNano pt) as [ps|] eqn:E.
    - rewrite E. rewrite IH in E. case_decide; by simplify_eq.
    - rewrite lookup_insert_eq. simpl. rewrite IH in E.
      case_decide as Hin; [done|]. symmetry. apply elem_of_nil_inv.
      intros p [Heq Hp]%list_elem_of_filter. apply Hin.
      apply list_elem_of_fmap. by exists p. }
  rewrite Hdef, fmap_app, filter_app. simpl.
  destruct (decide (ts = UnixNano pt)) as [->|Hne].
  - rewrite lookup_insert_eq.
    rewrite decide_True by (apply elem_of_app; right; apply list_elem_of_here).
    rewrite filter_cons_True by done. by rewrite filter_nil.
  - rewrite lookup_insert_ne by done.
    rewrite filter_cons_False by done. rewrite filter_nil, app_nil_r.
    assert (match m !! UnixNano pt with
            | Some _ => m
            | None => <[UnixNano pt := []]> m
            end !! ts = m !! ts) as ->.
    { destruct (m !! UnixNano pt); [done|]. by rewrite lookup_insert_ne. }
    rewrite IH. destruct (decide (ts ∈ UnixNano <$> pts)) as [Hin|Hnin].
    + by rewrite decide_True by (apply elem_of_app; by left).
    + rewrite decide_False; [done|].
      by intros [?|?%list_elem_of_singleton]%elem_of_app.
Qed.

Lemma groupByTimestamp_keys pts :
  GoRangeOk runtime →
  (go_range (groupByTimestamp pts)).*1 ≡ₚ remove_dups (UnixNano <$> pts).
Proof.
  intros Hok. rewrite (Hok _ _ _ _ _). apply NoDup_Permutation.
  - apply NoDup_fst_map_to_list.
  - apply NoDup_remove_dups.
  - intros ts. rewrite elem_of_remove_dups. split.
    + intros ([ts' ps] & -> & Hin)%list_elem_of_fmap.
      apply elem_of_map_to_list in Hin. simpl in *.
      rewrite groupByTimestamp_lookup in Hin. by case_decide.
    + intros Hin. apply list_elem_of_fmap.
      exists (ts, filter (λ p, UnixNano p = ts) pts). split; [done|].
      apply elem_of_map_to_list. rewrite groupByTimestamp_lookup.
      by rewrite decide_True.
Qed.

(** C9 (as the code has it). The buffer that [Write] sends is made of one
    record per distinct timestamp of the batch, in the order in which the
    runtime ranges over the groups: the number of records is the number
    of distinct timestamps, the record of a timestamp holds the tag and
    field text of all the points with that timestamp and ends in
    [timestamp=<ns>] and a newline. When no name, tag or field text of the
    batch holds a newline byte, the records are the lines of the buffer:
    the number of newline bytes is the number of distinct timestamps. *)
Theorem one_line_per_timestamp (pts : list Point) :
  GoRangeOk runtime →
  let groups := go_range (groupByTimestamp pts) in
  serialize pts = join (lineOf <$> groups)
  ∧ length (lineOf <$> groups) = length (remove_dups (UnixNano <$> pts))
  ∧ groups.*1 ≡ₚ remove_dups (UnixNano <$> pts)
  ∧ (∀ ts ps, (ts, ps) ∈ groups →
       ps = filter (λ p, UnixNano p = ts) pts
       ∧ ps ≠ []
       ∧ lineOf (ts, ps)
         = lineBody ps +:+ ("timestamp=" +:+ fmt_d ts +:+ NL))
  ∧ (Forall newlineFree pts →
     count_byte LF (serialize pts) = length (remove_dups (UnixNano <$> pts))).
Proof.
  intros Hok groups.
  pose proof (groupByTimestamp_keys pts Hok) as Hkeys. fold groups in Hkeys.
  assert (∀ ts ps, (ts, ps) ∈ groups →
            ps = filter (λ p, UnixNano p = ts) pts ∧ ps ≠ []) as Hgroup.
  { intros ts ps Hin. unfold groups in Hin. rewrite (Hok _ _ _ _ _) in Hin.
    apply elem_of_map_to_list in Hin. rewrite groupByTimestamp_lookup in Hin.
    case_decide as Hts; [|done]. simplify_eq. split; [done|].
    apply list_elem_of_fmap in Hts as (p & -> & Hp).
    intros Hnil. by apply (filter_nil_not_elem_of _ _ p Hnil). }
  assert (length (lineOf <$> groups) = length (remove_dups (UnixNano <$> pts)))
    as Hlen.
  { rewrite length_fmap, <- (Permutation_length Hkeys). by rewrite length_fmap. }
  split; [apply serialize_join|]. split; [done|]. split; [done|].
  split.
  - intros ts ps Hin. destruct (Hgroup ts ps Hin) as [Hps Hne]. done.
  - intros Hfree. rewrite serialize_join, count_byte_join. fold groups.
    rewrite <- list_fmap_compose, (sum_list_fmap_same 1).
    { rewrite length_fmap in Hlen. lia. }
    apply Forall_forall. intros [ts ps] Hin. simpl.
    apply lineOf_count; [done|]. simpl.
    destruct (Hgroup ts ps Hin) as [-> _].
    apply Forall_forall. intros p [_ Hp]%list_elem_of_filter.
    by apply (proj1 (Forall_forall _ _) Hfree).
Qed.

End Serialize.

(** ** The Pipeline output: the schema sent by [updateSchema] *)

Lemma fold_left_inv {A B} (P : A → Prop) (f : A → B → A) (l : list B) (a : A) :
  P a → (∀ a b, P a → b ∈ l → P (f a b)) → P (fold_left f l a).
Proof.
  revert a. induction l as [|b l IH]; intros a Ha Hf; simpl; [done|].
  apply IH.
  - apply Hf; [done|apply list_elem_of_here].
  - intros a' b' Ha' Hb'. apply Hf; [done|]. by apply list_elem_of_further.
Qed.

(** The working mapping after it has been seeded from the fetched schema:
    its keys are the keys of the fetched schema. *)
Lemma seed_lookup (schema : list RepoSchemaEntry) (m : gmap string string) k :
  is_Some (fold_left (λ schemas e, <[Key e := ValueType e]> schemas) schema m !! k)
  ↔ is_Some (m !! k) ∨ k ∈ Key <$> schema.
Proof.
  revert m. induction schema as [|e schema IH]; intros m; simpl.
  { split; [by left|]. intros [?|Hin]; [done|]. by apply elem_of_nil in Hin. }
  rewrite IH, lookup_insert_is_Some, elem_of_cons.
  destruct (decide (Key e = k)) as [Heq|Hne]; intuition congruence.
Qed.

(** Tags are added with type "string" unless the key is there. *)
Lemma tags_lookup (tags : list string) (m : gmap string string) k :
  fold_left
    (λ schemas tag,
       match schemas !! tag with
       | None => <[tag := "string"]> schemas
       | Some _ => schemas
       end) tags m !! k
  = match m !! k with
    | Some v => Some v
    | None => if decide (k ∈ tags) then Some "string" else None
    end.
Proof.
  revert m. induction tags as [|t tags IH]; intros m; simpl fold_left.
  { destruct (m !! k); [done|].
    by rewrite decide_False by apply not_elem_of_nil. }
  rewrite IH. destruct (decide (k = t)) as [->|Hne].
  - destruct (m !! t) as [v|] eqn:E; [by rewrite E|].
    rewrite lookup_insert_eq.
    by rewrite decide_True by apply list_elem_of_here.
  - assert (match m !! t with
            | Some _ => m
            | None => <[t := "string"]> m
            end !! k = m !! k) as ->.
    { destruct (m !! t); [done|]. by rewrite lookup_insert_ne. }
    destruct (m !! k); [done|].
    destruct (decide (k ∈ tags)) as [Hin|Hnin].
    + by rewrite decide_True by (by apply list_elem_of_further).
    + rewrite decide_False; [done|].
      by intros [?|?]%elem_of_cons.
Qed.

(** Fields are added with their type unless the key is there; the first
    entry of a key is the one that counts. *)
Lemma fields_lookup (l : list (string * string)) (m : gmap string string) k :
  fold_left
    (λ schemas kv,
       match schemas !! kv.1 with
       | None => <[kv.1 := kv.2]> schemas
       | Some _ => schemas
       end) l m !! k
  = match m !! k with
    | Some v => Some v
    | None => (list_to_map l : gmap string string) !! k
    end.
Proof.
  revert m. induction l as [|[k0 v0] l IH]; intros m; simpl.
  { rewrite lookup_empty. by destruct (m !! k). }
  rewrite IH. destruct (decide (k = k0)) as [->|Hne].
  - destruct (m !! k0) as [v|] eqn:E; [by rewrite E|].
    by rewrite !lookup_insert_eq.
  - assert (match m !! k0 with
            | Some _ => m
            | None => <[k0 := v0]> m
            end !! k = m !! k) as ->.
    { destruct (m !! k0); [done|]. by rewrite lookup_insert_ne. }
    by rewrite (lookup_insert_ne _ k0 k).
Qed.

(** The keys of the fetched schema are deleted at the end. *)
Lemma delete_lookup (schema : list RepoSchemaEntry) (m : gmap string string) k :
  fold_left (λ schemas e, delete (Key e) schemas) schema m !! k
  = if decide (k ∈ Key <$> schema) then None else m !! k.
Proof.
  revert m. induction schema as [|e schema IH]; intros m; simpl fold_left.
  { by rewrite decide_False by apply not_elem_of_nil. }
  rewrite IH. destruct (decide (k ∈ Key <$> schema)) as [Hin|Hnin].
  - by rewrite decide_True by (by apply list_elem_of_further).
  - destruct (decide (k = Key e)) as [->|Hne].
    + rewrite lookup_delete_eq.
      by rewrite decide_True by apply list_elem_of_here.
    + rewrite lookup_delete_ne by done.
      rewrite decide_False; [done|]. by intros [?|?]%elem_of_cons.
Qed.

Lemma target_entries (l : list (string * string)) (acc : list RepoSchemaEntry) :
  fold_left
    (λ target kv,
       target ++ [{| Required := false; Key := kv.1; ValueType := kv.2 |}])
    l acc
  = acc ++ ((λ kv, entry kv.1 kv.2) <$> l).
Proof.
  revert acc. induction l as [|kv l IH]; intros acc; simpl.
  { by rewrite app_nil_r. }
  by rewrite IH, <- app_assoc.
Qed.

Lemma timestamp_lookup (m : gmap string string) k :
  match m !! "timestamp" with
  | None => <["timestamp" := "long"]> m
  | Some _ => m
  end !! k
  = match m !! k with
    | Some v => Some v
    | None => if decide (k = "timestamp") then Some "long" else None
    end.
Proof.
  destruct (decide (k = "timestamp")) as [->|Hne].
  - destruct (m !! "timestamp") as [v|] eqn:E; [by rewrite E|].
    by rewrite lookup_insert_eq.
  - destruct (m !! "timestamp"); [by destruct (m !! k)|].
    rewrite lookup_insert_ne by done. by destruct (m !! k).
Qed.

(** A namespaced key, [<series>_<key>], is never [timestamp]. *)
Lemma namespaced_not_timestamp (name key : string) :
  name +:+ "_" +:+ key ≠ "timestamp".
Proof.
  intros Heq. apply (f_equal (count_byte "_"%char)) in Heq.
  rewrite !count_byte_append in Heq. simpl in Heq. lia.
Qed.

Section Schema.
Context {runtime : GoRuntime}.

Lemma schemaDelta_lookup schema tags fields k :
  GoRangeOk runtime →
  schemaDelta schema tags fields !! k
  = if decide (k ∈ Key <$> schema) then None else addedType tags fields k.
Proof.
  intros Hok. unfold schemaDelta. rewrite delete_lookup.
  case_decide as Hk; [done|].
  rewrite timestamp_lookup, fields_lookup, tags_lookup.
  assert (fold_left (λ schemas e, <[Key e := ValueType e]> schemas) schema
            (∅ : gmap string string) !! k = None) as ->.
  { apply eq_None_not_Some. rewrite seed_lookup, lookup_empty.
    intros [[? ?]|?]; done. }
  rewrite (list_to_map_proper _ (map_to_list fields)), list_to_map_to_list.
  - unfold addedType. case_decide; [done|]. by destruct (fields !! k).
  - rewrite (Hok _ _ _ _ _). apply NoDup_fst_map_to_list.
  - apply Hok.
Qed.

Lemma schemaTarget_fmap schema tags fields :
  schemaTarget schema tags fields
  = (λ kv, entry kv.1 kv.2) <$> go_range (schemaDelta schema tags fields).
Proof. unfold schemaTarget. by rewrite target_entries. Qed.

Lemma schemaTarget_elem schema tags fields k ty :
  GoRangeOk runtime →
  entry k ty ∈ schemaTarget schema tags fields
  ↔ (k ∉ Key <$> schema) ∧ addedType tags fields k = Some ty.
Proof.
  intros Hok. rewrite schemaTarget_fmap, list_elem_of_fmap.
  setoid_rewrite (Hok _ _ _ _ _). split.
  - intros ([k' ty'] & Heq & Hin). unfold entry in Heq. simplify_eq/=.
    apply elem_of_map_to_list in Hin.
    rewrite schemaDelta_lookup in Hin by done. by case_decide.
  - intros [Hk Hty]. exists (k, ty). split; [done|].
    apply elem_of_map_to_list. rewrite schemaDelta_lookup by done.
    by rewrite decide_False.
Qed.

Lemma schemaTarget_keys schema tags fields :
  GoRangeOk runtime → NoDup (Key <$> schemaTarget schema tags fields).
Proof.
  intros Hok. rewrite schemaTarget_fmap, <- list_fmap_compose.
  change (Key ∘ (λ kv : string * string, entry kv.1 kv.2)) with (@fst string string).
  rewrite (Hok _ _ _ _ _). apply NoDup_fst_map_to_list.
Qed.

(** No extracted key is the key [timestamp]. *)
Lemma extract_not_timestamp points :
  ("timestamp" ∉ (extractSchemaFromPoints points).1)
  ∧ (extractSchemaFromPoints points).2 !! "timestamp" = None.
Proof.
  unfold extractSchemaFromPoints.
  apply (fold_left_inv
    (λ acc : list string * gmap string string,
       ("timestamp" ∉ acc.1) ∧ acc.2 !! "timestamp" = None)).
  { split; [apply not_elem_of_nil|apply lookup_empty]. }
  intros [tags fields] pt [Ht Hf] _. simpl in *. split.
  - apply (fold_left_inv (λ tags : list string, "timestamp" ∉ tags)); [done|].
    intros tags' val Ht' _ [Hin|Hin%list_elem_of_singleton]%elem_of_app;
      [done|]. by eapply namespaced_not_timestamp.
  - apply (fold_left_inv
      (λ fields : gmap string string, fields !! "timestamp" = None)); [done|].
    intros fields' kv Hf' _. rewrite lookup_insert_ne; [done|].
    apply namespaced_not_timestamp.
Qed.

End Schema.

Section Additive.
Context {runtime : GoRuntime} {backend : Backend}.

(** C1 (as the code has it). The schema that [updateSchema] sends, to
    update-repo or in the bootstrap branch to create-repo, is the fetched
    schema followed by a delta. The delta has no key twice and no key of
    the fetched schema, so no fetched entry is sent again, retyped or
    removed, and each of its entries is optional. It holds every extracted
    tag key that the fetched schema lacks, with type "string"; every
    extracted field key that the fetched schema lacks and that is not also
    an extracted tag key, with its inferred type; and [timestamp] with
    type "long" if the fetched schema lacks it; and nothing else. *)
Theorem schema_update_is_additive (i : Pipeline) (points : list Point) (st : St) :
  connected i →
  GoRangeOk runtime →
  let fetched := reply_schema (answer st (get_repo i)) in
  let tags := (extractSchemaFromPoints points).1 in
  let fields := (extractSchemaFromPoints points).2 in
  let delta := schemaTarget fetched tags fields in
  let createRepo :=
    match reply_err (answer st (get_repo i)) with
    | Some e => Contains e "E18102"
    | None => false
    end in
  (∃ e st' cs,
     updateSchema i points st = (Ret e, st')
     ∧ issued st st'
         (get_repo i ::
          (if createRepo then CreateRepo (Repo i) "nb" (fetched ++ delta)
           else UpdateRepo (Repo i) (fetched ++ delta)) :: cs))
  ∧ NoDup (Key <$> delta)
  ∧ (∀ e, e ∈ delta →
       (Key e ∉ Key <$> fetched) ∧ Required e = false
       ∧ addedType tags fields (Key e) = Some (ValueType e))
  ∧ (∀ k, k ∈ tags → k ∉ Key <$> fetched → entry k "string" ∈ delta)
  ∧ (∀ k ty, fields !! k = Some ty → k ∉ tags → k ∉ Key <$> fetched →
       entry k ty ∈ delta)
  ∧ ("timestamp" ∉ Key <$> fetched → entry "timestamp" "long" ∈ delta).
Proof.
  intros Hi Hok fetched tags fields delta createRepo.
  split; [|split; [by apply schemaTarget_keys|split; [|split; [|split]]]].
  - pose proof (updateSchema_run i points st Hi) as Hrun. cbv zeta in Hrun.
    fold fetched createRepo in Hrun. unfold payload in Hrun.
    fold tags fields delta in Hrun. rewrite Hrun.
    set (st1 := record st (get_repo i)).
    destruct createRepo.
    + set (c := CreateRepo (Repo i) "nb" (fetched ++ delta)).
      assert (issued st (record st1 c) [get_repo i; c]) as H2.
      { apply (issued_trans _ st1 _ [_] [_]); apply issued_record. }
      destruct (reply_err (answer st1 c)) as [e|].
      * exists (Some e), (record st1 c), []. by split.
      * destruct (updateExport_returns i points
          (record (record st1 c) (TsdbCreateRepo (Repo i) "nb")) Hi)
          as (e & st' & cs & -> & Hiss & _).
        exists e, st', (TsdbCreateRepo (Repo i) "nb" :: cs). split; [done|].
        apply (issued_trans _ _ _ [_; _] (_ :: _) H2).
        apply (issued_trans _ _ _ [_] _ (issued_record _ _) Hiss).
    + set (c := UpdateRepo (Repo i) (fetched ++ delta)).
      destruct (updateExport_returns i points (record st1 c) Hi)
        as (e & st' & cs & -> & Hiss & _).
      exists e, st', cs. split; [done|].
      apply (issued_trans _ st1 _ [_] (_ :: _) (issued_record _ _)).
      apply (issued_trans _ _ _ [_] _ (issued_record _ _) Hiss).
  - intros e He. unfold delta in He.
    assert (e = entry (Key e) (ValueType e) ∧ Required e = false) as [Heq Hreq].
    { rewrite schemaTarget_fmap in He.
      apply list_elem_of_fmap in He as (kv & -> & _). done. }
    rewrite Heq in He. apply schemaTarget_elem in He as [Hk Hty]; done.
  - intros k Hk Hnew. apply schemaTarget_elem; [done|]. split; [done|].
    unfold addedType. by rewrite decide_True.
  - intros k ty Hk Hnt Hnew. apply schemaTarget_elem; [done|]. split; [done|].
    unfold addedType. by rewrite decide_False, Hk.
  - intros Hnew. apply schemaTarget_elem; [done|]. split; [done|].
    destruct (extract_not_timestamp points) as [Ht Hf].
    unfold addedType. fold tags fields in Ht, Hf.
    by rewrite decide_False, Hf.
Qed.

End Additive.

(** ** The claims on concrete batches *)

Lemma runtime_ok : GoRangeOk Example.runtime.
Proof. intros K ? ? V m. reflexivity. Qed.

Lemma pipe_connected auto : connected (Example.pipe auto).
Proof. split; eexists; reflexivity. Qed.

Lemma the_host_reads :
  @readPoints Example.the_host [Example.batch_text] = inr Example.batch.
Proof. reflexivity. Qed.

(** C1, the claim as written fails. The point [cpu,host=a host=1i] has the
    field key [cpu_host] with inferred type "long", and the fetched schema
    is empty; the schema sent to update-repo has [cpu_host] with type
    "string", the type of the tag of the same key, and not with "long". *)
Lemma field_key_shadowed_by_tag_key :
  (@extractSchemaFromPoints Example.runtime [Example.cpu_host]).2 !! "cpu_host"
    = Some "long"
  ∧ @payload Example.runtime [] [Example.cpu_host]
    = [entry "cpu_host" "string"; entry "timestamp" "long"]
  ∧ (entry "cpu_host" "long" ∉ @payload Example.runtime [] [Example.cpu_host])
  ∧ (trace (@updateSchema Example.runtime (Example.allOk []) (Example.pipe true)
              [Example.cpu_host] (Example.start (Example.allOk []) ())).2).*1
      !! 1%nat
    = Some (UpdateRepo "monitor"
              [entry "cpu_host" "string"; entry "timestamp" "long"]).
Proof.
  assert (@payload Example.runtime [] [Example.cpu_host]
          = [entry "cpu_host" "string"; entry "timestamp" "long"]) as Hp
    by reflexivity.
  split; [reflexivity|]. split; [exact Hp|]. split; [|reflexivity].
  rewrite Hp. intros [Heq|[Heq|Hin]%elem_of_cons]%elem_of_cons.
  - discriminate Heq.
  - discriminate Heq.
  - by apply elem_of_nil in Hin.
Qed.

Lemma schema_update_is_additive_witness :
  (∃ e st' cs,
     @updateSchema Example.runtime (Example.allOk [entry "cpu_host" "string"])
       (Example.pipe true) Example.batch
       (Example.start (Example.allOk [entry "cpu_host" "string"]) ())
     = (Ret e, st')
     ∧ issued (Example.start (Example.allOk [entry "cpu_host" "string"]) ()) st'
         (GetRepo "monitor" ::
          UpdateRepo "monitor"
            (entry "cpu_host" "string" ::
             @schemaTarget Example.runtime [entry "cpu_host" "string"]
               (@extractSchemaFromPoints Example.runtime Example.batch).1
               (@extractSchemaFromPoints Example.runtime Example.batch).2)
          :: cs))
  ∧ entry "timestamp" "long"
    ∈ @schemaTarget Example.runtime [entry "cpu_host" "string"]
        (@extractSchemaFromPoints Example.runtime Example.batch).1
        (@extractSchemaFromPoints Example.runtime Example.batch).2.
Proof.
  pose proof (@schema_update_is_additive Example.runtime
                (Example.allOk [entry "cpu_host" "string"])
                (Example.pipe true) Example.batch
                (Example.start (Example.allOk [entry "cpu_host" "string"]) ())
                (pipe_connected true) runtime_ok) as H.
  cbv zeta in H. destruct H as (Hrun & _ & _ & _ & _ & Hts).
  split; [exact Hrun|]. apply Hts.
  intros [Heq|Hin]%elem_of_cons; [discriminate Heq|].
  by apply elem_of_nil in Hin.
Defined.

(** C2, the claim as written fails. The repo is missing and the pipeline
    service refuses to create it: [updateSchema] returns that error. *)
Lemma pipeline_repo_failure_is_returned :
  reply_err (answer (Example.start Example.noRepo ())
               (get_repo (Example.pipe true)))
    = Some "E18102: repo does not exist"
  ∧ (@updateSchema Example.runtime Example.noRepo (Example.pipe true)
       Example.batch (Example.start Example.noRepo ())).1
    = Ret (Some "E18101: invalid repo name")
  ∧ (@updateSchema Example.runtime Example.noRepo (Example.pipe true)
       Example.batch (Example.start Example.noRepo ())).1
    ≠ Ret None.
Proof. split; [reflexivity|]. split; [reflexivity|discriminate]. Qed.

(** The other half of the asymmetry of C2 on the code: the error of a
    refused TSDB repo is built and then overwritten by the result of
    [updateExport], so [updateSchema] returns nil. *)
Lemma tsdb_repo_failure_is_overwritten :
  (trace (@updateSchema Example.runtime Example.noTsdbRepo (Example.pipe true)
            Example.batch (Example.start Example.noTsdbRepo ())).2) !! 2%nat
    = Some (TsdbCreateRepo "monitor" "nb", Some "E7001: repo quota exceeded")
  ∧ (@updateSchema Example.runtime Example.noTsdbRepo (Example.pipe true)
       Example.batch (Example.start Example.noTsdbRepo ())).1
    = Ret None.
Proof. split; reflexivity. Qed.

Lemma bootstrap_escalation_witness :
  @updateSchema Example.runtime Example.noRepo (Example.pipe true)
    Example.batch (Example.start Example.noRepo ())
  = (Ret (Some "E18101: invalid repo name"),
     record (record (Example.start Example.noRepo ())
               (get_repo (Example.pipe true)))
       (CreateRepo "monitor" "nb" (@payload Example.runtime [] Example.batch))).
Proof.
  exact (proj1 (@bootstrap_escalation Example.runtime Example.noRepo
                  (Example.pipe true) Example.batch
                  (Example.start Example.noRepo ())
                  "E18102: repo does not exist"
                  (pipe_connected true) eq_refl eq_refl)
               "E18101: invalid repo name" eq_refl).
Defined.

(** C4, the claim as written fails for the TSDB output. The series is
    missing (code E7101) and [auto_create_series] is off: [Write] returns
    the sentinel error, not nil. *)
Lemma tsdb_missing_series_returns_error :
  Pandora.AutoCreateSeries Example.tsdb = false
  ∧ reply_err (answer (Example.start Example.missingSeries ())
                 (Pandora.post Example.tsdb Example.test_points))
    = Some "E7101: series does not exist"
  ∧ (@Pandora.Write Example.the_host Example.missingSeries Example.tsdb
       [Example.test_points] (Example.start Example.missingSeries ())).1
    = Ret (Some "Could not write to any PandoraTSDB server in cluster")
  ∧ (@Pandora.Write Example.the_host Example.missingSeries Example.tsdb
       [Example.test_points] (Example.start Example.missingSeries ())).1
    ≠ Ret None.
Proof.
  split; [reflexivity|]. split; [reflexivity|].
  split; [reflexivity|discriminate].
Qed.

Lemma missing_object_without_auto_create_witness :
  @Write Example.runtime Example.the_host Example.noRepo (Example.pipe false)
    30 [Example.batch_text] (Example.start Example.noRepo ())
  = (Ret None,
     record (Example.start Example.noRepo ())
       (@post Example.runtime (Example.pipe false) Example.batch))
  ∧ @Pandora.Write Example.the_host Example.missingSeries Example.tsdb
      [Example.test_points] (Example.start Example.missingSeries ())
    = (Ret (Some Pandora.sentinel),
       record (Example.start Example.missingSeries ())
         (Pandora.post Example.tsdb Example.test_points)).
Proof.
  split.
  - exact (proj1 (@missing_object_without_auto_create Example.runtime
                    Example.the_host Example.noRepo)
             (Example.pipe false) 30%Z [Example.batch_text] Example.batch
             (Example.start Example.noRepo ())
             (NewHandle "https://pipeline.qiniu.com")
             "E18102: repo does not exist"
             eq_refl the_host_reads eq_refl eq_refl eq_refl).
  - exact (proj2 (@missing_object_without_auto_create Example.runtime
                    Example.the_host Example.missingSeries)
             Example.tsdb [Example.test_points]
             (Example.start Example.missingSeries ())
             (NewHandle "https://tsdb.qiniu.com") Example.test_points
             "E7101: series does not exist"
             eq_refl eq_refl eq_refl eq_refl eq_refl eq_refl).
Defined.

Lemma tsdb_field_type_conflict_dropped_witness :
  @Pandora.Write Example.the_host (Example.refusing Example.conflict)
    Example.tsdb_auto [Example.test_points]
    (Example.start (Example.refusing Example.conflict) ())
  = (Ret None,
     @Build_St (Example.refusing Example.conflict) ()
       [(TsdbPostPointsFromBytes "telegraf" Example.test_points,
         Some Example.conflict)]).
Proof.
  exact (proj1 (@tsdb_field_type_conflict_dropped Example.the_host
                  (Example.refusing Example.conflict)
                  Example.tsdb_auto [Example.test_points]
                  (Example.start (Example.refusing Example.conflict) ())
                  (NewHandle "https://tsdb.qiniu.com") Example.test_points
                  Example.conflict eq_refl eq_refl eq_refl eq_refl)).
Defined.

Lemma createOrUpdateExport_idempotent_witness :
  ∃ st1 st2,
    @createOrUpdateExport Example.runtime (Example.exportStore ok)
      (Example.pipe true) "cpu" {[ "host" := () ]} {[ "usage" := () ]}
      (Example.start (Example.exportStore ok) ∅)
    = (Ret None, st1)
    ∧ @createOrUpdateExport Example.runtime (Example.exportStore ok)
        (Example.pipe true) "cpu" {[ "host" := () ]} {[ "usage" := () ]} st1
      = (Ret None, st2)
    ∧ world st2 = world st1
    ∧ (trace st2).*1
      = [TsdbCreateSeries "monitor" "cpu" "7d";
         @create_export Example.runtime (Example.pipe true) "cpu"
           {[ "host" := () ]} {[ "usage" := () ]};
         TsdbCreateSeries "monitor" "cpu" "7d";
         @create_export Example.runtime (Example.pipe true) "cpu"
           {[ "host" := () ]} {[ "usage" := () ]};
         @update_export Example.runtime (Example.pipe true) "cpu"
           {[ "host" := () ]} {[ "usage" := () ]}].
Proof.
  destruct (@createOrUpdateExport_idempotent Example.runtime ok
              (Example.pipe true) "cpu"
              {[ "host" := () ]} {[ "usage" := () ]}
              {[ "host" := () ]} {[ "usage" := () ]}
              ∅ (pipe_connected true) (lookup_empty _))
    as (st1 & st2 & H1 & H2 & Ht1 & Ht2 & _ & _ & Hsame).
  exists st1, st2. split; [exact H1|]. split; [exact H2|].
  split; [exact (proj2 (Hsame eq_refl eq_refl))|].
  rewrite Ht2, Ht1. reflexivity.
Defined.

(** C7, the claim as written fails. [Connect] refuses the adapter of the
    test [TestHTTPConnectError_InvalidURL] and leaves it without clients;
    [Write] of a readable batch on it panics instead of returning. *)
Lemma write_before_connect_panics :
  @Connect Example.the_host Example.unconnected
    = (Example.unconnected, Some "config.URL scheme must be http(s), got htt")
  ∧ @Write Example.runtime Example.the_host (Example.allOk [])
      Example.unconnected 30 [Example.batch_text]
      (Example.start (Example.allOk []) ())
    = (Panic, Example.start (Example.allOk []) ())
  ∧ @Pandora.Write Example.the_host (Example.allOk [])
      Example.unconnected_tsdb [Example.test_points]
      (Example.start (Example.allOk []) ())
    = (Panic, Example.start (Example.allOk []) ()).
Proof. split; [reflexivity|]. split; reflexivity. Qed.

Lemma write_on_nil_client_witness :
  @Write Example.runtime Example.the_host (Example.allOk [])
    Example.unconnected 30 [Example.batch_text]
    (Example.start (Example.allOk []) ())
  = (Panic, Example.start (Example.allOk []) ())
  ∧ @Write Example.runtime Example.the_host (Example.allOk [])
      Example.unconnected 30 ["not line protocol"]
      (Example.start (Example.allOk []) ())
    = (Ret (Some "unable to parse"), Example.start (Example.allOk []) ()).
Proof.
  split.
  - exact (proj1 (@write_on_nil_client Example.runtime Example.the_host
                    (Example.allOk []))
             Example.unconnected 30%Z [Example.batch_text]
             (Example.start (Example.allOk []) ()) eq_refl).
  - exact (proj1 (@write_on_nil_client Example.runtime Example.the_host
                    (Example.allOk []))
             Example.unconnected 30%Z ["not line protocol"]
             (Example.start (Example.allOk []) ()) eq_refl).
Defined.

Lemma opportunistic_export_refresh_witness :
  (∃ st',
     @Write Example.runtime Example.the_host (Example.allOk [])
       (Example.pipe false) 1700000405 [Example.batch_text]
       (Example.start (Example.allOk []) ())
     = (Ret None, st')
     ∧ (length (trace st') > 1)%nat)
  ∧ @Write Example.runtime Example.the_host (Example.allOk [])
      (Example.pipe false) 1700000411 [Example.batch_text]
      (Example.start (Example.allOk []) ())
    = (Ret None,
       record (Example.start (Example.allOk []) ())
         (@post Example.runtime (Example.pipe false) Example.batch)).
Proof.
  split.
  - destruct (@opportunistic_export_refresh Example.runtime Example.the_host
                (Example.allOk []) (Example.pipe false) 1700000405%Z
                [Example.batch_text] Example.batch
                (Example.start (Example.allOk []) ())
                (pipe_connected false) the_host_reads eq_refl)
      as (st' & Hrun & _ & Hmore & _).
    exists st'. split; [exact Hrun|].
    assert (length (trace (record (Example.start (Example.allOk []) ())
                             (@post Example.runtime (Example.pipe false)
                                Example.batch)))
            < length (trace st'))%nat as Hlt.
    { apply Hmore; [reflexivity|exact runtime_ok|discriminate]. }
    simpl in Hlt. lia.
  - destruct (@opportunistic_export_refresh Example.runtime Example.the_host
                (Example.allOk []) (Example.pipe false) 1700000411%Z
                [Example.batch_text] Example.batch
                (Example.start (Example.allOk []) ())
                (pipe_connected false) the_host_reads eq_refl)
      as (st' & Hrun & _ & _ & Hnot).
    rewrite Hrun. f_equal. apply Hnot. vm_compute. discriminate.
Defined.

(** C9, the claim as written fails. A string field that holds a newline
    is written as it is: the buffer of one point, with one timestamp, has
    two newline-terminated lines, and the first does not end in
    [timestamp=<ns>]. *)
Lemma newline_in_field_splits_line :
  length (remove_dups (UnixNano <$> [Example.cpu_msg])) = 1%nat
  ∧ count_byte LF (@serialize Example.runtime [Example.cpu_msg]) = 2%nat
  ∧ Split (@serialize Example.runtime [Example.cpu_msg]) LF
    = ["cpu_host=a" +:+ TAB +:+ "cpu_msg=disk";
       "full" +:+ TAB +:+ "timestamp=1000";
       ""].
Proof. split; [reflexivity|]. split; reflexivity. Qed.

Lemma batch_newline_free : Forall (@newlineFree Example.runtime) Example.batch.
Proof.
  repeat apply Forall_cons_2; [| | |apply Forall_nil_2];
    (split; [reflexivity|]; split;
     [repeat constructor|by apply map_Forall_singleton]).
Qed.

Lemma one_line_per_timestamp_witness :
  @serialize Example.runtime Example.batch
  = join (@lineOf Example.runtime
            <$> @go_range Example.runtime _ _ _ _ (groupByTimestamp Example.batch))
  ∧ length (@lineOf Example.runtime
              <$> @go_range Example.runtime _ _ _ _
                    (groupByTimestamp Example.batch))
    = 2%nat
  ∧ count_byte LF (@serialize Example.runtime Example.batch) = 2%nat.
Proof.
  destruct (@one_line_per_timestamp Example.runtime Example.batch runtime_ok)
    as (Hjoin & Hlen & _ & _ & Hcount).
  split; [exact Hjoin|]. split; [rewrite Hlen; reflexivity|].
  rewrite (Hcount batch_newline_free). reflexivity.
Defined.

Lemma tsdb_write_failure_returns_sentinel_witness :
  ∃ st',
    @Pandora.Write Example.the_host Example.missingSeries Example.tsdb_auto
      [Example.test_points] (Example.start Example.missingSeries ())
    = (Ret (Some "Could not write to any PandoraTSDB server in cluster"), st')
    ∧ issued (Example.start Example.missingSeries ()) st'
        [TsdbPostPointsFromBytes "telegraf" Example.test_points;
         TsdbCreateSeries "telegraf" "cpu" "3d";
         TsdbCreateSeries "telegraf" "gpu" "3d";
         TsdbCreateSeries "telegraf" "test" "3d";
         TsdbCreateSeries "telegraf" "mem" "3d"].
Proof.
  exact (@tsdb_write_failure_returns_sentinel Example.the_host
           Example.missingSeries Example.tsdb_auto [Example.test_points]
           (Example.start Example.missingSeries ())
           (NewHandle "https://tsdb.qiniu.com") Example.test_points
           "E7101: series does not exist" eq_refl eq_refl eq_refl eq_refl).
Defined.

(** * Further properties of the two outputs *)

(** ** [Connect] *)

Section Connecting.
Context {host : Host}.

(** X1. [Connect] of either output refuses a URL that does not parse, and
    a URL whose scheme is neither [http] nor [https], before it builds a
    client: the error names the parse error or the scheme, and the adapter
    is as it was. *)
Theorem connect_refuses_url :
  (∀ (i : Pipeline) scheme e,
     url_Parse (URL i) = (scheme, Some e) →
     Connect i = (i, Some ("error parsing config.URL: " +:+ e)))
  ∧ (∀ (i : Pipeline) scheme,
     url_Parse (URL i) = (scheme, None) →
     scheme ≠ "http" → scheme ≠ "https" →
     Connect i = (i, Some ("config.URL scheme must be http(s), got " +:+ scheme)))
  ∧ (∀ (i : Pandora.PandoraTSDB) scheme e,
     url_Parse (Pandora.URL i) = (scheme, Some e) →
     Pandora.Connect i = (i, Some ("error parsing config.URL: " +:+ e)))
  ∧ (∀ (i : Pandora.PandoraTSDB) scheme,
     url_Parse (Pandora.URL i) = (scheme, None) →
     scheme ≠ "http" → scheme ≠ "https" →
     Pandora.Connect i
     = (i, Some ("config.URL scheme must be http(s), got " +:+ scheme))).
Proof.
  assert (∀ scheme, scheme ≠ "http" → scheme ≠ "https" →
            negb (String.eqb scheme "http") && negb (String.eqb scheme "https")
            = true) as Hscheme.
  { intros scheme H1 H2.
    destruct (String.eqb_spec scheme "http"); [done|].
    by destruct (String.eqb_spec scheme "https"). }
  repeat split.
  - intros i scheme e Hp. unfold Connect. by rewrite Hp.
  - intros i scheme Hp H1 H2. unfold Connect. by rewrite Hp, Hscheme.
  - intros i scheme e Hp. unfold Pandora.Connect. by rewrite Hp.
  - intros i scheme Hp H1 H2. unfold Pandora.Connect. by rewrite Hp, Hscheme.
Qed.

Lemma Connect_steps (i : Pipeline) :
  Connect i
  = match url_Parse (URL i) with
    | (_, Some e) => (i, Some ("error parsing config.URL: " +:+ e))
    | (scheme, None) =>
        if negb (String.eqb scheme "http") && negb (String.eqb scheme "https")
        then (i, Some ("config.URL scheme must be http(s), got " +:+ scheme))
        else
          match pipeline_New (pipelineCfg i) with
          | (_, Some e) => (i, Some e)
          | (c, None) =>
              match tsdb_New (tsdbCfg i) with
              | (_, Some e) => (with_client i c, Some e)
              | (t, None) => (with_tsdbClient (with_client i c) t, None)
              end
          end
    end.
Proof.
  unfold Connect. destruct (url_Parse (URL i)) as [scheme [e|]]; [done|].
  destruct (negb (String.eqb scheme "http") && negb (String.eqb scheme "https"));
    [done|].
  fold (pipelineCfg i).
  by destruct (pipeline_New (pipelineCfg i)) as [c [e|]].
Qed.

(** X2. [Pipeline.Connect] returns nil exactly when the URL parses with
    scheme [http] or [https] and both client constructors succeed; the
    adapter then holds the two clients they built, the pipeline client for
    the configured URL and the TSDB client for the fixed TSDB endpoint,
    and its configuration is unchanged. *)
Theorem pipeline_connect_succeeds (i : Pipeline) :
  (Connect i).2 = None
  ↔ ∃ scheme c t,
      url_Parse (URL i) = (scheme, None)
      ∧ (scheme = "http" ∨ scheme = "https")
      ∧ pipeline_New (pipelineCfg i) = (c, None)
      ∧ tsdb_New (tsdbCfg i) = (t, None)
      ∧ Connect i = (with_tsdbClient (with_client i c) t, None).
Proof.
  rewrite Connect_steps.
  destruct (url_Parse (URL i)) as [scheme [e|]].
  { split; [done|]. by intros (? & ? & ? & [=] & _). }
  destruct (String.eqb_spec scheme "http") as [Hh|Hh];
    destruct (String.eqb_spec scheme "https") as [Hs|Hs]; simpl.
  4:{ split; [done|]. intros (? & ? & ? & [= <-] & [?|?] & _); done. }
  all: destruct (pipeline_New (pipelineCfg i)) as [c [e|]];
       [ split; [done|]; by intros (? & ? & ? & _ & _ & [=] & _) | ];
       destruct (tsdb_New (tsdbCfg i)) as [t [e|]];
       [ split; [done|]; by intros (? & ? & ? & _ & _ & _ & [=] & _) | ];
       (split; [intros _; exists scheme, c, t; repeat split; auto | done]).
Qed.

(** X3. When the pipeline client is built and the construction of the
    TSDB client fails, [Pipeline.Connect] returns the error of the TSDB
    constructor, and the adapter it leaves behind holds the pipeline
    client and no new TSDB client. *)
Theorem pipeline_connect_partial (i : Pipeline) scheme c t e :
  url_Parse (URL i) = (scheme, None) →
  scheme = "http" ∨ scheme = "https" →
  pipeline_New (pipelineCfg i) = (c, None) →
  tsdb_New (tsdbCfg i) = (t, Some e) →
  Connect i = (with_client i c, Some e)
  ∧ client (Connect i).1 = c
  ∧ tsdbClient (Connect i).1 = tsdbClient i.
Proof.
  intros Hp Hs Hc Ht.
  assert (Connect i = (with_client i c, Some e)) as ->; [|done].
  rewrite Connect_steps, Hp, Hc, Ht. by destruct Hs as [->| ->].
Qed.

(** X4. [PandoraTSDB.Connect] has no partial state: whenever it returns an
    error the adapter is as it was, and when it returns nil the adapter
    differs from the old one only in its client, which is the one the
    constructor built for the configured URL. *)
Theorem tsdb_connect_all_or_nothing (i : Pandora.PandoraTSDB) :
  match (Pandora.Connect i).2 with
  | Some _ => (Pandora.Connect i).1 = i
  | None =>
      ∃ c, tsdb_New (Pandora.tsdbCfg i) = (c, None)
           ∧ (Pandora.Connect i).1 = Pandora.with_client i c
  end.
Proof.
  unfold Pandora.Connect. fold (Pandora.tsdbCfg i).
  destruct (url_Parse (Pandora.URL i)) as [scheme [e|]]; [done|].
  destruct (negb (String.eqb scheme "http") && negb (String.eqb scheme "https"));
    [done|].
  destruct (tsdb_New (Pandora.tsdbCfg i)) as [c [e|]]; simpl; [done|].
  by exists c.
Qed.

End Connecting.

(** ** One write per invocation *)

Section OneWrite.
Context {runtime : GoRuntime} {host : Host} {backend : Backend}.
Implicit Types (i : Pipeline) (st : St).






(** X6. On a connected adapter whose batch was read, [PandoraTSDB.Write]
    returns, and it returns nil exactly when the backend accepts the write
    or refuses it with "field type conflict"; every other refusal gives
    the sentinel error. The write is its first call and the only write of
    the invocation: it is not repeated after the series were created. *)
Theorem tsdb_write_once (i : Pandora.PandoraTSDB) metrics st h buf :
  Pandora.client i = Some h →
  Reader_Read metrics (sum_list (Metric_Len <$> metrics)) = (buf, None) →
  ∃ r st' cs,
    Pandora.Write i metrics st = (Ret r, st')
    ∧ issued st st' (Pandora.post i buf :: cs)
    ∧ Forall (λ c, is_write c = false) cs
    ∧ r = match reply_err (answer st (Pandora.post i buf)) with
          | None => None
          | Some e =>
              if Contains e "field type conflict" then None
              else Some Pandora.sentinel
          end.
Proof.
  intros Hc Hread. unfold Pandora.Write. rewrite Hread, Hc.
  unfold bind at 1. rewrite call_Some. fold (Pandora.post i buf).
  set (st1 := record st (Pandora.post i buf)).
  destruct (reply_err (answer st (Pandora.post i buf))) as [e|].
  2:{ exists None, st1, []. split; [done|]. split; [apply issued_record|done]. }
  destruct (Contains e "field type conflict").
  { exists None, st1, []. split; [done|]. split; [apply issued_record|done]. }
  destruct (Contains e "E7101" && Pandora.AutoCreateSeries i).
  2:{ eexists _, st1, []. split; [done|]. split; [apply issued_record|done]. }
  destruct (createSeries_returns h (Pandora.Repo i) (Pandora.RetentionPolicy i)
              buf st1) as (err & st' & Hcs & Hiss).
  rewrite (bind_Ret _ _ _ _ _ Hcs).
  eexists _, st', _. split; [done|].
  split; [apply (issued_trans _ _ _ [_] _ (issued_record _ _) Hiss)|].
  split; [|done]. apply Forall_fmap, Forall_forall. done.
Qed.

End OneWrite.

(** ** Reading the batch, and the empty batch *)

Section Reading.
Context {runtime : GoRuntime} {host : Host} {backend : Backend}.
Implicit Types (i : Pipeline) (st : St).

(** X7. How [Pipeline.Write] reads the batch. The whole buffer of the
    size of the batch is parsed, so after a short read the parser is given
    the bytes read followed by zero bytes. An error of the reader ends
    [Write] only when the read was short as well: with a full buffer the
    error is dropped and the buffer is parsed. *)
Theorem pipeline_read_then_parse (metrics : list Metric) buf err :
  let bufsize := sum_list (Metric_Len <$> metrics) in
  Reader_Read metrics bufsize = (buf, err) →
  (String.length buf = bufsize → readPoints metrics = parsed buf)
  ∧ (err = None →
     readPoints metrics = parsed (buf +:+ zeros (bufsize - String.length buf)))
  ∧ (∀ e, err = Some e → String.length buf ≠ bufsize →
     readPoints metrics = inl e).
Proof.
  intros bufsize Hread. unfold readPoints. fold bufsize. rewrite Hread.
  fold (zeros (bufsize - String.length buf)).
  fold (parsed (buf +:+ zeros (bufsize - String.length buf))).
  split; [|split].
  - intros Hlen. rewrite Hlen, Nat.sub_diag, Nat.eqb_refl. simpl.
    unfold zeros. simpl. rewrite append_nil_r. by destruct err.
  - by intros ->.
  - intros e -> Hne. by rewrite (proj2 (Nat.eqb_neq _ _) Hne).
Qed.

Lemma go_range_empty {K} `{Countable K} {V} :
  GoRangeOk runtime → go_range (∅ : gmap K V) = [].
Proof.
  intros Hok. apply Permutation_nil_r. rewrite (Hok _ _ _ _ _).
  by rewrite map_to_list_empty.
Qed.

(** X8. A batch that parses to no point is still written: [Write] sends
    the empty buffer, and after a successful write it returns nil without
    another call, at every second of the minute and also when the TSDB
    client is nil, because the export sweep has no series to visit. *)
Theorem pipeline_write_empty_batch i now metrics st h :
  GoRangeOk runtime →
  client i = Some h →
  readPoints metrics = inr [] →
  reply_err (answer st (PostDataFromBytes (Repo i) "")) = None →
  serialize [] = ""
  ∧ (∀ st0, updateExport i [] st0 = (Ret None, st0))
  ∧ Write i now metrics st
    = (Ret None, record st (PostDataFromBytes (Repo i) "")).
Proof.
  intros Hok Hc Hread Hreply.
  assert (serialize [] = "") as Hser.
  { unfold serialize, groupByTimestamp. simpl fold_left at 2.
    by rewrite go_range_empty. }
  assert (∀ st0, updateExport i [] st0 = (Ret None, st0)) as Hexp.
  { intros st0. unfold updateExport, measurementsOf. simpl fold_left.
    by rewrite go_range_empty. }
  split; [done|]. split; [done|].
  rewrite (Write_run _ _ _ _ _ _ Hc Hread). cbv zeta. unfold post.
  rewrite Hser, Hreply. destruct (Z.rem now 60 <? 11)%Z; [|done].
  by rewrite Hexp.
Qed.

End Reading.

(** ** [extractSchemaFromPoints] *)

Lemma fold_left_snoc_fmap {A B} (f : A → B) (l : list A) (acc : list B) :
  fold_left (λ acc x, acc ++ [f x]) l acc = acc ++ (f <$> l).
Proof.
  revert acc. induction l as [|x l IH]; intros acc; simpl.
  { by rewrite app_nil_r. }
  by rewrite IH, <- app_assoc.
Qed.


Section Extract.
Context {runtime : GoRuntime}.

Lemma extract_snoc points pt :
  extractSchemaFromPoints (points ++ [pt])
  = (fold_left (λ tags val, tags ++ [Name pt +:+ "_" +:+ val.1])
               (Tags pt) (extractSchemaFromPoints points).1,
     fold_left (λ fields kv,
                  <[Name pt +:+ "_" +:+ kv.1 := getFieldType kv.2]> fields)
               (go_range (Fields pt)) (extractSchemaFromPoints points).2).
Proof. unfold extractSchemaFromPoints. by rewrite fold_left_app. Qed.

(** X9. The tag keys that [extractSchemaFromPoints] returns are the tag
    keys of all points, each prefixed with the name of its point and an
    underscore, in the order of the batch and of the tags of each point;
    a key that occurs in several points is listed once per occurrence. *)
Theorem extract_tags_in_batch_order (points : list Point) :
  (extractSchemaFromPoints points).1
  = points ≫= (λ pt, (λ val, Name pt +:+ "_" +:+ val.1) <$> Tags pt).
Proof.
  induction points as [|pt points IH] using rev_ind; [done|].
  rewrite extract_snoc, bind_app. simpl.
  rewrite (fold_left_snoc_fmap (λ val, Name pt +:+ "_" +:+ val.1)), IH.
  by rewrite app_nil_r.
Qed.




End Extract.

(** ** [updateExport]: the series of a batch and their keys *)

Lemma fold_alter_lookup {A V} (F : A → V → V) (k : string) (l : list A)
    (m : gmap string V) k' :
  fold_left (λ ms a, alter (F a) k ms) l m !! k'
  = if decide (k' = k)
    then (λ v, fold_left (λ v a, F a v) l v) <$> m !! k
    else m !! k'.
Proof.
  revert m. induction l as [|a l IH]; intros m; simpl.
  { case_decide as Hk; [subst k'|done]. by destruct (m !! k). }
  rewrite IH. case_decide as Hk.
  - rewrite lookup_alter_eq. by destruct (m !! k).
  - by rewrite lookup_alter_ne.
Qed.

Lemma fold_insert_unit_is_Some {A} (f : A → string) (l : list A)
    (t : gmap string ()) k :
  is_Some (fold_left (λ t a, <[f a := ()]> t) l t !! k)
  ↔ is_Some (t !! k) ∨ k ∈ f <$> l.
Proof.
  revert t. induction l as [|a l IH]; intros t; simpl.
  { split; [by left|]. intros [?|Hin]; [done|]. by apply elem_of_nil in Hin. }
  rewrite IH, lookup_insert_is_Some, elem_of_cons.
  destruct (decide (f a = k)) as [Heq|Hne]; intuition congruence.
Qed.

Lemma fold_pair_fst {A} (f : A → string) (l : list A)
    (v : gmap string () * gmap string ()) :
  fold_left (λ v a, (<[f a := ()]> v.1, v.2)) l v
  = (fold_left (λ t a, <[f a := ()]> t) l v.1, v.2).
Proof.
  revert v. induction l as [|a l IH]; intros [t u]; simpl; [done|].
  by rewrite IH.
Qed.

Lemma fold_pair_snd {A} (f : A → string) (l : list A)
    (v : gmap string () * gmap string ()) :
  fold_left (λ v a, (v.1, <[f a := ()]> v.2)) l v
  = (v.1, fold_left (λ t a, <[f a := ()]> t) l v.2).
Proof.
  revert v. induction l as [|a l IH]; intros [t u]; simpl; [done|].
  by rewrite IH.
Qed.

Section Measurements.
Context {runtime : GoRuntime}.

(** One more point: its series gets its keys, the other series stay. *)
Lemma measurementsOf_snoc points pt s :
  measurementsOf (points ++ [pt]) !! s
  = if decide (s = Name pt)
    then
      let v := default (∅, ∅) (measurementsOf points !! s) in
      Some (fold_left (λ t tag, <[tag.1 := ()]> t) (Tags pt) v.1,
            fold_left (λ t kv, <[kv.1 := ()]> t) (go_range (Fields pt)) v.2)
    else measurementsOf points !! s.
Proof.
  unfold measurementsOf. rewrite fold_left_app. simpl.
  set (m := fold_left _ points ∅).
  rewrite (fold_alter_lookup (λ field v, (v.1, <[field.1 := ()]> v.2))).
  destruct (decide (s = Name pt)) as [->|Hs].
  - rewrite (fold_alter_lookup (λ tag v, (<[tag.1 := ()]> v.1, v.2))).
    rewrite decide_True by done.
    assert (match m !! Name pt with
            | Some _ => m
            | None => <[Name pt := (∅, ∅)]> m
            end !! Name pt = Some (default (∅, ∅) (m !! Name pt))) as ->.
    { destruct (m !! Name pt) as [v|] eqn:E; [by rewrite E|].
      by rewrite lookup_insert_eq. }
    simpl.
    rewrite (fold_pair_fst (λ tag : string * string, tag.1)).
    by rewrite (fold_pair_snd (λ kv : string * GoValue, kv.1)).
  - rewrite (fold_alter_lookup (λ tag v, (<[tag.1 := ()]> v.1, v.2))).
    rewrite decide_False by done.
    destruct (m !! Name pt); [done|]. by rewrite lookup_insert_ne.
Qed.

Lemma measurementsOf_inv points s :
  GoRangeOk runtime →
  match measurementsOf points !! s with
  | None => s ∉ Name <$> points
  | Some v =>
      s ∈ Name <$> points
      ∧ (∀ k, is_Some (v.1 !! k)
              ↔ ∃ pt, pt ∈ points ∧ Name pt = s ∧ k ∈ (Tags pt).*1)
      ∧ (∀ k, is_Some (v.2 !! k)
              ↔ ∃ pt, pt ∈ points ∧ Name pt = s ∧ is_Some (Fields pt !! k))
  end.
Proof.
  intros Hok. induction points as [|pt points IH] using rev_ind.
  { unfold measurementsOf. simpl. rewrite lookup_empty. apply not_elem_of_nil. }
  rewrite measurementsOf_snoc. case_decide as Hs.
  - subst s. cbv zeta. split; [|split].
    + rewrite fmap_app. apply elem_of_app. right. constructor.
    + intros k. simpl. rewrite fold_insert_unit_is_Some. split.
      * intros [Hk|Hk].
        -- destruct (measurementsOf points !! Name pt) as [v|].
           ++ destruct IH as (_ & Ht & _). apply Ht in Hk as (p & Hp & ? & ?).
              exists p. split; [apply elem_of_app; by left|done].
           ++ simpl in Hk. rewrite lookup_empty in Hk. by destruct Hk.
        -- exists pt. split; [apply elem_of_app; right; constructor|done].
      * intros (p & [Hp|Hp%list_elem_of_singleton]%elem_of_app & Hn & Hk).
        -- left. destruct (measurementsOf points !! Name pt) as [v|].
           ++ destruct IH as (_ & Ht & _). apply Ht. by exists p.
           ++ exfalso. apply IH. apply list_elem_of_fmap. by exists p.
        -- right. by subst p.
    + intros k. simpl. rewrite fold_insert_unit_is_Some.
      assert (k ∈ (λ kv : string * GoValue, kv.1) <$> go_range (Fields pt)
              ↔ is_Some (Fields pt !! k)) as ->.
      { rewrite (Hok _ _ _ _ _). split.
        - intros ([k' v'] & -> & Hin)%list_elem_of_fmap.
          apply elem_of_map_to_list in Hin. by exists v'.
        - intros [v' Hv]. apply list_elem_of_fmap. exists (k, v').
          split; [done|]. by apply elem_of_map_to_list. }
      split.
      * intros [Hk|Hk].
        -- destruct (measurementsOf points !! Name pt) as [v|].
           ++ destruct IH as (_ & _ & Hf). apply Hf in Hk as (p & Hp & ? & ?).
              exists p. split; [apply elem_of_app; by left|done].
           ++ simpl in Hk. rewrite lookup_empty in Hk. by destruct Hk.
        -- exists pt. split; [apply elem_of_app; right; constructor|done].
      * intros (p & [Hp|Hp%list_elem_of_singleton]%elem_of_app & Hn & Hk).
        -- left. destruct (measurementsOf points !! Name pt) as [v|].
           ++ destruct IH as (_ & _ & Hf). apply Hf. by exists p.
           ++ exfalso. apply IH. apply list_elem_of_fmap. by exists p.
        -- right. by subst p.
  - destruct (measurementsOf points !! s) as [v|].
    + destruct IH as (Hin & Ht & Hf). split; [|split].
      * rewrite fmap_app. apply elem_of_app. by left.
      * intros k. rewrite Ht. split.
        -- intros (p & Hp & ? & ?). exists p.
           split; [apply elem_of_app; by left|done].
        -- intros (p & [Hp|Hp%list_elem_of_singleton]%elem_of_app & Hn & Hk).
           ++ by exists p.
           ++ by subst p.
      * intros k. rewrite Hf. split.
        -- intros (p & Hp & ? & ?). exists p.
           split; [apply elem_of_app; by left|done].
        -- intros (p & [Hp|Hp%list_elem_of_singleton]%elem_of_app & Hn & Hk).
           ++ by exists p.
           ++ by subst p.
    + rewrite fmap_app. intros [Hin|Hin%list_elem_of_singleton]%elem_of_app.
      * by apply IH.
      * by apply Hs.
Qed.

(** X11. The series that [updateExport] reconciles are the names of the
    points of the batch, and the tag set and field set it passes for a
    series are the unions of the tag keys and of the field keys of all the
    points of that series in the batch. *)
Theorem measurements_collect_keys (points : list Point) (s : string) :
  GoRangeOk runtime →
  (measurementsOf points !! s = None ↔ s ∉ Name <$> points)
  ∧ (∀ tags fields,
       measurementsOf points !! s = Some (tags, fields) →
       (∀ k, is_Some (tags !! k)
             ↔ ∃ pt, pt ∈ points ∧ Name pt = s ∧ k ∈ (Tags pt).*1)
       ∧ (∀ k, is_Some (fields !! k)
               ↔ ∃ pt, pt ∈ points ∧ Name pt = s ∧ is_Some (Fields pt !! k))).
Proof.
  intros Hok. pose proof (measurementsOf_inv points s Hok) as Hinv.
  destruct (measurementsOf points !! s) as [[t f]|].
  - destruct Hinv as (Hin & Ht & Hf). split.
    + split; [done|]. intros Hnin. by destruct Hnin.
    + intros tags fields [= <- <-]. done.
  - split; [done|]. intros tags fields [=].
Qed.

End Measurements.

(** ** [updateExport] and [createOrUpdateExport] *)

Lemma fold_insert_key_lookup {V} (f : string → string)
    (l : list (string * V)) (acc : gmap string string) k :
  fold_left (λ spec kv, <[kv.1 := f kv.1]> spec) l acc !! k
  = if decide (k ∈ l.*1) then Some (f k) else acc !! k.
Proof.
  revert acc. induction l as [|[k0 v0] l IH]; intros acc; simpl fold_left.
  { by rewrite decide_False by apply not_elem_of_nil. }
  rewrite IH. simpl. destruct (decide (k ∈ l.*1)) as [Hin|Hnin].
  - by rewrite decide_True by (by apply list_elem_of_further).
  - destruct (decide (k = k0)) as [->|Hne].
    + rewrite lookup_insert_eq.
      by rewrite decide_True by apply list_elem_of_here.
    + rewrite lookup_insert_ne by done.
      rewrite decide_False; [done|]. by intros [?|?]%elem_of_cons.
Qed.

Section ExportSweep.
Context {runtime : GoRuntime} {backend : Backend}.
Implicit Types (i : Pipeline) (st : St).



(** X13. The errors of [createOrUpdateExport] on a connected adapter. An
    error of the export creation without code E18301 is returned as it is
    and no update is issued. With code E18301 the export is updated and
    the result is the answer of the update, so a failed update is
    returned. In both cases the series creation was issued first and its
    answer plays no part. *)
Theorem createOrUpdateExport_errors i s tags fields st e :
  connected i →
  let st1 := record st (create_series i s) in
  let st2 := record st1 (create_export i s tags fields) in
  reply_err (answer st1 (create_export i s tags fields)) = Some e →
  (Contains e "E18301" = false →
   createOrUpdateExport i s tags fields st = (Ret (Some e), st2))
  ∧ (Contains e "E18301" = true →
     createOrUpdateExport i s tags fields st
     = (Ret (reply_err (answer st2 (update_export i s tags fields))),
        record st2 (update_export i s tags fields))).
Proof.
  intros Hi st1 st2 He.
  rewrite (createOrUpdateExport_run _ _ _ _ _ Hi). cbv zeta.
  fold st1. rewrite He. fold st2. split; by intros ->.
Qed.

(** X14. The spec that [createOrUpdateExport] sends: the destination repo
    is the repo of the adapter, the timestamp is the field [#timestamp],
    and every tag key and every field key of the series is mapped to the
    field reference [#<series>_<key>], in whatever order the keys are
    visited; no other key is mapped. *)
Theorem exportSpec_maps_every_key i s (tags fields : gmap string ()) :
  GoRangeOk runtime →
  DestRepoName (exportSpec i s tags fields) = Repo i
  ∧ SeriesName (exportSpec i s tags fields) = s
  ∧ Timestamp (exportSpec i s tags fields) = "#timestamp"
  ∧ (∀ k, ExportTags (exportSpec i s tags fields) !! k
          = (λ _, "#" +:+ s +:+ "_" +:+ k) <$> tags !! k)
  ∧ (∀ k, ExportFields (exportSpec i s tags fields) !! k
          = (λ _, "#" +:+ s +:+ "_" +:+ k) <$> fields !! k).
Proof.
  intros Hok.
  assert (∀ (keys : gmap string ()) k,
            exportSpecOf s keys !! k
            = (λ _, "#" +:+ s +:+ "_" +:+ k) <$> keys !! k) as Hspec.
  { intros keys k. unfold exportSpecOf.
    rewrite (fold_insert_key_lookup (λ key, "#" +:+ s +:+ "_" +:+ key)).
    rewrite lookup_empty.
    destruct (keys !! k) as [[]|] eqn:E; simpl.
    - rewrite decide_True; [done|]. rewrite (Hok _ _ _ _ _).
      apply list_elem_of_fmap. exists (k, ()). split; [done|].
      by apply elem_of_map_to_list.
    - rewrite decide_False; [done|]. rewrite (Hok _ _ _ _ _).
      intros ([k' v] & -> & Hin)%list_elem_of_fmap.
      apply elem_of_map_to_list in Hin. simpl in *. congruence. }
  repeat split; try done; intros k; apply Hspec.
Qed.

End ExportSweep.

(** ** [getSeries] and [createSeries] *)

Lemma Split_append (a b : string) (sep : ascii) :
  Split (a +:+ String sep b) sep = Split a sep ++ Split b sep.
Proof.
  induction a as [|c a IH].
  { simpl. by rewrite Ascii.eqb_refl. }
  rewrite append_cons. simpl. destruct (Ascii.eqb c sep).
  - by rewrite IH.
  - rewrite IH. pose proof (Split_length a sep) as Hl.
    destruct (Split a sep); simpl in *; [lia|done].
Qed.

Lemma Split_no_sep (s : string) (sep : ascii) :
  Forall (λ l, count_byte sep l = 0%nat) (Split s sep).
Proof.
  induction s as [|c s IH]; simpl; [by repeat constructor|].
  destruct (Ascii.eqb c sep) eqn:E; [by constructor|].
  destruct (Split s sep) as [|w ws]; [by repeat constructor; simpl; rewrite E|].
  apply Forall_cons in IH as [Hw Hws]. constructor; [|done].
  simpl. by rewrite E, Hw.
Qed.

Lemma before_count (c d : ascii) (s : string) :
  (count_byte d (before c s) ≤ count_byte d s)%nat
  ∧ count_byte c (before c s) = 0%nat.
Proof.
  induction s as [|x s [IH1 IH2]]; simpl; [done|].
  destruct (Ascii.eqb x c) eqn:E; simpl; [split; [lia|done]|].
  rewrite E, IH2. split; [|done]. destruct (Ascii.eqb x d); lia.
Qed.

Lemma getSeries_filter points :
  Pandora.getSeries points
  = (before comma <$>
       filter (λ l, l ≠ "" ∧ (0 < count_byte comma l)%nat) (Split points LF)).
Proof. unfold Pandora.getSeries. by rewrite getSeries_loop. Qed.

(** X15. [getSeries] reads a buffer line by line: the names of two buffers
    joined by a newline are the names of the first followed by the names
    of the second. The empty buffer has no name, so a newline at the end
    of a buffer changes nothing. *)
Theorem getSeries_of_joined_buffers (a b : string) :
  Pandora.getSeries (a +:+ String LF b)
  = Pandora.getSeries a ++ Pandora.getSeries b
  ∧ Pandora.getSeries "" = []
  ∧ Pandora.getSeries (a +:+ String LF "") = Pandora.getSeries a.
Proof.
  assert (∀ a b, Pandora.getSeries (a +:+ String LF b)
                 = Pandora.getSeries a ++ Pandora.getSeries b) as Happ.
  { intros a' b'. rewrite !getSeries_filter, Split_append.
    by rewrite filter_app, fmap_app. }
  split; [apply Happ|]. split; [done|].
  rewrite Happ. apply app_nil_r.
Qed.

(** X16. A name that [getSeries] returns holds neither a comma nor a
    newline, and there are at most as many names as the buffer has
    lines. *)
Theorem getSeries_names_are_clean (points : string) :
  Forall (λ s, count_byte comma s = 0%nat ∧ count_byte LF s = 0%nat)
         (Pandora.getSeries points)
  ∧ (length (Pandora.getSeries points) ≤ S (count_byte LF points))%nat.
Proof.
  rewrite getSeries_filter. split.
  - apply Forall_fmap, Forall_forall. intros l [_ Hl]%list_elem_of_filter.
    simpl. destruct (before_count comma comma l) as [_ Hc].
    split; [done|].
    destruct (before_count comma LF l) as [Hle _].
    pose proof (proj1 (Forall_forall _ _) (Split_no_sep points LF) l Hl) as H0.
    simpl in H0. lia.
  - rewrite length_fmap, <- Split_length. apply length_filter.
Qed.

Section CreateSeries.
Context {backend : Backend}.

Lemma for_err_app {A} (body : A → M error) (l1 l2 : list A) err st :
  for_err body (l1 ++ l2) err st
  = match for_err body l1 err st with
    | (Ret e, st1) => for_err body l2 e st1
    | (Panic, st1) => (Panic, st1)
    end.
Proof.
  revert err st. induction l1 as [|x l1 IH]; intros err st; simpl; [done|].
  unfold bind. destruct (body x st) as [[e|] st1]; [apply IH|done].
Qed.

(** X17. The result of [createSeries]. For a buffer without a series name
    it returns nil and calls nothing, also through a nil client. On a
    constructed client it creates the series one after the other,
    whatever the creations answer, and returns the answer to the creation
    of the last series only. Through a nil client the first creation
    panics. *)
Theorem createSeries_returns_last_answer (repo retention points : string)
    (client : option Handle) (st : St) :
  (Pandora.getSeries points = [] →
   Pandora.createSeries repo retention points client st = (Ret None, st))
  ∧ (∀ h names s,
       client = Some h →
       Pandora.getSeries points = names ++ [s] →
       ∃ st1,
         issued st st1 ((λ s, TsdbCreateSeries repo s retention) <$> names)
         ∧ Pandora.createSeries repo retention points client st
           = (Ret (reply_err (answer st1 (TsdbCreateSeries repo s retention))),
              record st1 (TsdbCreateSeries repo s retention)))
  ∧ (client = None → Pandora.getSeries points ≠ [] →
     Pandora.createSeries repo retention points client st = (Panic, st)).
Proof.
  unfold Pandora.createSeries. split; [|split].
  - by intros ->.
  - intros h names s -> ->. rewrite for_err_app.
    destruct (createSeries_loop h repo retention names None st)
      as (e & st1 & -> & Hiss).
    exists st1. split; [done|]. simpl. unfold bind at 1. unfold bind at 1.
    by rewrite call_Some.
  - intros -> Hne. destruct (Pandora.getSeries points) as [|s l]; [done|].
    done.
Qed.

End CreateSeries.

(** ** The schema of [updateSchema], once more *)

Section Again.
Context {runtime : GoRuntime}.

(** X18. Reconciling twice adds nothing: when the fetched schema is what
    [updateSchema] sent for the same tags and fields, the delta is empty
    and the schema that is sent is the fetched one. *)
Theorem schema_delta_of_sent_schema_is_empty (schema : list RepoSchemaEntry)
    (tags : list string) (fields : gmap string string) :
  GoRangeOk runtime →
  let sent := schema ++ schemaTarget schema tags fields in
  schemaTarget sent tags fields = []
  ∧ sent ++ schemaTarget sent tags fields = sent.
Proof.
  intros Hok sent.
  assert (schemaTarget sent tags fields = []) as Hnil; [|by rewrite Hnil, app_nil_r].
  rewrite schemaTarget_fmap.
  assert (schemaDelta sent tags fields = ∅) as ->.
  { apply map_eq. intros k. rewrite lookup_empty.
    rewrite schemaDelta_lookup by done. case_decide as Hk; [done|].
    destruct (addedType tags fields k) as [ty|] eqn:Hty; [|done].
    exfalso. apply Hk. unfold sent. rewrite fmap_app. apply elem_of_app.
    destruct (decide (k ∈ Key <$> schema)) as [Hin|Hnin]; [by left|right].
    apply list_elem_of_fmap. exists (entry k ty). split; [done|].
    by apply schemaTarget_elem. }
  by rewrite go_range_empty.
Qed.

End Again.

(** ** The text of a record, and a half-connected adapter *)

Section RecordText.
Context {runtime : GoRuntime} {host : Host} {backend : Backend}.
Implicit Types (i : Pipeline) (st : St).

(** X19. The text that [Write] builds for a group of points: the points
    follow each other in the order of the batch; each point gives its
    tags, in the order of its tag list, and then its fields, each field
    once; and every tag and field is written as [<series>_<key>=<value>]
    followed by a tab. *)
Theorem record_text (name : string) (tags : list (string * string))
    (fields : gmap string GoValue) (ps : list Point) :
  GoRangeOk runtime →
  convertTag name tags
  = join ((λ val, name +:+ "_" +:+ val.1 +:+ "=" +:+ val.2 +:+ TAB) <$> tags)
  ∧ (∃ l, l ≡ₚ map_to_list fields
          ∧ convertField name fields
            = join ((λ kv, name +:+ "_" +:+ kv.1 +:+ "=" +:+ fmt_v kv.2 +:+ TAB)
                      <$> l))
  ∧ lineBody ps
    = join ((λ pt, convertTag (Name pt) (Tags pt)
                   +:+ convertField (Name pt) (Fields pt)) <$> ps).
Proof.
  intros Hok. split; [|split].
  - unfold convertTag.
    by rewrite (fold_left_append
      (λ val, name +:+ "_" +:+ val.1 +:+ "=" +:+ val.2 +:+ TAB)).
  - exists (go_range fields). split; [apply Hok|]. unfold convertField.
    by rewrite (fold_left_append
      (λ kv, name +:+ "_" +:+ kv.1 +:+ "=" +:+ fmt_v kv.2 +:+ TAB)).
  - unfold lineBody.
    rewrite (fold_left_ext _
      (λ d pt, d +:+ (convertTag (Name pt) (Tags pt)
                        +:+ convertField (Name pt) (Fields pt))))
      by (intros d pt; apply append_assoc).
    by rewrite fold_left_append.
Qed.

(** X20. An adapter that holds the pipeline client but no TSDB client, as
    [Connect] leaves it when the TSDB constructor fails, writes a batch
    that parses, and then panics when the export sweep runs: after an
    accepted write of a batch with a point, in the first eleven seconds
    of a minute. Outside of that window the same write returns nil. *)
Theorem half_connected_write i now metrics pts st h :
  GoRangeOk runtime →
  client i = Some h →
  tsdbClient i = None →
  readPoints metrics = inr pts →
  pts ≠ [] →
  reply_err (answer st (post i pts)) = None →
  Write i now metrics st
  = if (Z.rem now 60 <? 11)%Z
    then (Panic, record st (post i pts))
    else (Ret None, record st (post i pts)).
Proof.
  intros Hok Hc Ht Hread Hne Hreply.
  rewrite (Write_run _ _ _ _ _ _ Hc Hread). cbv zeta. rewrite Hreply.
  destruct (Z.rem now 60 <? 11)%Z; [|done].
  pose proof (measurementsOf_nonempty pts Hok Hne) as Hlen.
  unfold updateExport.
  destruct (go_range (measurementsOf pts)) as [|kv l]; [simpl in Hlen; lia|].
  simpl. unfold bind at 1. unfold createOrUpdateExport.
  unfold bind at 1. by rewrite Ht.
Qed.

End RecordText.

(** ** The further properties on concrete adapters and batches *)

Lemma connect_refuses_url_witness :
  @Connect Example.the_host Example.unconnected
  = (Example.unconnected, Some "config.URL scheme must be http(s), got htt")
  ∧ @Pandora.Connect Example.the_host Example.unconnected_tsdb
    = (Example.unconnected_tsdb,
       Some "config.URL scheme must be http(s), got htt").
Proof.
  split.
  - apply (proj1 (proj2 (@connect_refuses_url Example.the_host))
             Example.unconnected "htt"); [reflexivity|discriminate|discriminate].
  - apply (proj2 (proj2 (proj2 (@connect_refuses_url Example.the_host)))
             Example.unconnected_tsdb "htt");
      [reflexivity|discriminate|discriminate].
Defined.

Lemma pipeline_connect_succeeds_witness :
  ∃ scheme c t,
    @url_Parse Example.the_host (URL Example.fresh) = (scheme, None)
    ∧ (scheme = "http" ∨ scheme = "https")
    ∧ @pipeline_New Example.the_host (pipelineCfg Example.fresh) = (c, None)
    ∧ @tsdb_New Example.the_host (tsdbCfg Example.fresh) = (t, None)
    ∧ @Connect Example.the_host Example.fresh
      = (with_tsdbClient (with_client Example.fresh c) t, None).
Proof.
  exact (proj1 (@pipeline_connect_succeeds Example.the_host Example.fresh)
           eq_refl).
Defined.

Lemma pipeline_connect_partial_witness :
  @Connect Example.host_no_tsdb Example.fresh
  = (Example.half, Some "invalid endpoint").
Proof.
  exact (proj1 (@pipeline_connect_partial Example.host_no_tsdb Example.fresh
                  "https" (Some (NewHandle "https://pipeline.qiniu.com")) None
                  "invalid endpoint" eq_refl (or_intror eq_refl)
                  eq_refl eq_refl)).
Defined.


Lemma tsdb_write_once_witness :
  ∃ st' cs,
    @Pandora.Write Example.the_host Example.missingSeries Example.tsdb_auto
      [Example.test_points] (Example.start Example.missingSeries ())
    = (Ret (Some Pandora.sentinel), st')
    ∧ issued (Example.start Example.missingSeries ()) st'
        (Pandora.post Example.tsdb_auto Example.test_points :: cs)
    ∧ Forall (λ c, is_write c = false) cs.
Proof.
  destruct (@tsdb_write_once Example.the_host Example.missingSeries
              Example.tsdb_auto [Example.test_points]
              (Example.start Example.missingSeries ())
              (NewHandle "https://tsdb.qiniu.com") Example.test_points
              eq_refl eq_refl)
    as (r & st' & cs & Hrun & Hiss & Hcs & ->).
  by exists st', cs.
Defined.

Lemma pipeline_read_then_parse_witness :
  @readPoints Example.eof_host [Example.batch_text] = inr Example.batch.
Proof.
  exact (proj1 (@pipeline_read_then_parse Example.eof_host
                  [Example.batch_text] Example.batch_text (Some "EOF") eq_refl)
           eq_refl).
Defined.

Lemma pipeline_write_empty_batch_witness :
  @Write Example.runtime Example.empty_host (Example.allOk []) Example.half
    1700000405 [] (Example.start (Example.allOk []) ())
  = (Ret None,
     record (Example.start (Example.allOk []) ())
       (PostDataFromBytes "monitor" "")).
Proof.
  exact (proj2 (proj2 (@pipeline_write_empty_batch Example.runtime
                         Example.empty_host (Example.allOk []) Example.half
                         1700000405%Z [] (Example.start (Example.allOk []) ())
                         (NewHandle "https://pipeline.qiniu.com")
                         runtime_ok eq_refl eq_refl eq_refl))).
Defined.


Lemma measurements_collect_keys_witness :
  is_Some (({[ "host" := () ]} : gmap string ()) !! "host")
  ↔ ∃ pt, pt ∈ Example.batch ∧ Name pt = "cpu" ∧ "host" ∈ (Tags pt).*1.
Proof.
  exact (proj1 (proj2 (@measurements_collect_keys Example.runtime Example.batch
                         "cpu" runtime_ok)
                  {[ "host" := () ]} {[ "usage" := () ]} eq_refl) "host").
Defined.


Lemma createOrUpdateExport_errors_witness :
  @createOrUpdateExport Example.runtime
    (Example.exportRefused "E18003: not allowed") (Example.pipe true)
    "cpu" {[ "host" := () ]} {[ "usage" := () ]}
    (Example.start (Example.exportRefused "E18003: not allowed") ())
  = (Ret (Some "E18003: not allowed"),
     record
       (record (Example.start (Example.exportRefused "E18003: not allowed") ())
          (create_series (Example.pipe true) "cpu"))
       (@create_export Example.runtime (Example.pipe true) "cpu"
          {[ "host" := () ]} {[ "usage" := () ]})).
Proof.
  exact (proj1 (@createOrUpdateExport_errors Example.runtime
                  (Example.exportRefused "E18003: not allowed")
                  (Example.pipe true) "cpu"
                  {[ "host" := () ]} {[ "usage" := () ]}
                  (Example.start (Example.exportRefused "E18003: not allowed") ())
                  "E18003: not allowed" (pipe_connected true) eq_refl)
           eq_refl).
Defined.

Lemma exportSpec_maps_every_key_witness :
  ExportTags (@exportSpec Example.runtime (Example.pipe true) "cpu"
                {[ "host" := () ]} {[ "usage" := () ]}) !! "host"
  = Some "#cpu_host".
Proof.
  exact (proj1 (proj2 (proj2 (proj2
           (@exportSpec_maps_every_key Example.runtime (Example.pipe true) "cpu"
              {[ "host" := () ]} {[ "usage" := () ]} runtime_ok)))) "host").
Defined.

Lemma createSeries_returns_last_answer_witness :
  ∃ st1,
    issued (Example.start Example.missingSeries ()) st1
      [TsdbCreateSeries "telegraf" "cpu" "3d";
       TsdbCreateSeries "telegraf" "gpu" "3d";
       TsdbCreateSeries "telegraf" "test" "3d"]
    ∧ @Pandora.createSeries Example.missingSeries "telegraf" "3d"
        Example.test_points (Some (NewHandle "https://tsdb.qiniu.com"))
        (Example.start Example.missingSeries ())
      = (Ret None, record st1 (TsdbCreateSeries "telegraf" "mem" "3d")).
Proof.
  exact (proj1 (proj2 (@createSeries_returns_last_answer Example.missingSeries
                         "telegraf" "3d" Example.test_points
                         (Some (NewHandle "https://tsdb.qiniu.com"))
                         (Example.start Example.missingSeries ())))
           (NewHandle "https://tsdb.qiniu.com") ["cpu"; "gpu"; "test"] "mem"
           eq_refl eq_refl).
Defined.

Lemma schema_delta_of_sent_schema_is_empty_witness :
  @schemaTarget Example.runtime (@payload Example.runtime [] Example.batch)
    (@extractSchemaFromPoints Example.runtime Example.batch).1
    (@extractSchemaFromPoints Example.runtime Example.batch).2
  = [].
Proof.
  exact (proj1 (@schema_delta_of_sent_schema_is_empty Example.runtime []
                  (@extractSchemaFromPoints Example.runtime Example.batch).1
                  (@extractSchemaFromPoints Example.runtime Example.batch).2
                  runtime_ok)).
Defined.

Lemma record_text_witness :
  convertTag "cpu" [("host", "a"); ("region", "nb")]
  = "cpu_host=a" +:+ TAB +:+ "cpu_region=nb" +:+ TAB.
Proof.
  exact (proj1 (@record_text Example.runtime "cpu"
                  [("host", "a"); ("region", "nb")] ∅ [] runtime_ok)).
Defined.

Lemma half_connected_write_witness :
  @Write Example.runtime Example.the_host (Example.allOk []) Example.half
    1700000405 [Example.batch_text] (Example.start (Example.allOk []) ())
  = (Panic,
     record (Example.start (Example.allOk []) ())
       (@post Example.runtime Example.half Example.batch)).
Proof.
  apply (@half_connected_write Example.runtime Example.the_host
           (Example.allOk []) Example.half 1700000405%Z [Example.batch_text]
           Example.batch (Example.start (Example.allOk []) ())
           (NewHandle "https://pipeline.qiniu.com") runtime_ok eq_refl eq_refl
           the_host_reads); [discriminate|reflexivity].
Defined.
